(** * FishNet (pytorchcv/models/others/fishnet.py): a shallow embedding

    The Python module builds a static graph of [nn.Module]s and runs tensors
    through it.  The embedding keeps the two levels apart:

    - construction: every [__init__] is a function into an error monad
      ([result]) that returns a record describing the module;
    - evaluation: every [forward] is a function on row-major tensors into
      the same monad.

    Python integers are [Z]; tensor extents and indices are [nat]. *)

From Stdlib Require Import String Ascii DecimalString DecimalPos DecimalZ.
From Stdlib Require Import ZArith List Bool Lia Arith PeanoNat FinFun.
Import ListNotations.
Open Scope string_scope.
Open Scope list_scope.
Open Scope nat_scope.

(** ** Python exceptions and the error monad *)

Inductive exn : Type :=
| TypeError (msg : string)
| ValueError (msg : string)
| RuntimeError (msg : string)
| AssertionError
| AttributeError (msg : string)
| IndexError (msg : string)
| ZeroDivisionError.

Inductive result (A : Type) : Type :=
| Ok (a : A)
| Err (e : exn).

Arguments Ok {A} a.
Arguments Err {A} e.

Definition bind {A B : Type} (m : result A) (k : A -> result B) : result B :=
  match m with
  | Ok a => k a
  | Err e => Err e
  end.

Notation "x <- m ;; k" := (bind m (fun x => k))
  (at level 61, m at next level, right associativity).
Notation "' pat <- m ;; k" := (bind m (fun x => match x with pat => k end))
  (at level 61, pat pattern, m at next level, right associativity).

Definition is_ok {A : Type} (m : result A) : bool :=
  match m with Ok _ => true | Err _ => false end.

(** ["{}".format(n)] for an integer. *)
Definition format_int (n : Z) : string := NilZero.string_of_int (Z.to_int n).

(** ** Tensors

    A contiguous tensor: its extents and its elements in row-major order.
    Element arithmetic is a parameter: [add] is the element addition and
    [zero] the value of an empty sum. *)

Section Tensors.

Variable T : Type.
Variable add : T -> T -> T.
Variable zero : T.

Record Tensor : Type := mkTensor { dims : list nat; data : list T }.

Definition prod (l : list nat) : nat := fold_right Nat.mul 1 l.

Definition numel (x : Tensor) : nat := length (data x).

(** A tensor is well formed when it holds as many elements as its extents say. *)
Definition wf_tensor (x : Tensor) : Prop := length (data x) = prod (dims x).

(** [x[b, c, h, w]] for a 4D tensor. *)
Definition get4 (x : Tensor) (b c h w : nat) : T :=
  match dims x with
  | [_; C; H; W] => nth (((b * C + c) * H + h) * W + w) (data x) zero
  | _ => zero
  end.

(** [batch, channels, height, width = x.size()] *)
Definition size4 (x : Tensor) : result (nat * nat * nat * nat) :=
  match dims x with
  | [b; c; h; w] => Ok (b, c, h, w)
  | _ => Err (ValueError "wrong number of values to unpack (expected 4)")
  end.

(** [x.view(shape)]: the same elements under other extents (tensors here
    are contiguous, so only the element count is checked). *)
Definition view (x : Tensor) (shape : list nat) : result Tensor :=
  if prod shape =? numel x
  then Ok (mkTensor shape (data x))
  else Err (RuntimeError "shape is invalid for input of this size").

(** The sum of a sequence of elements, left to right. *)
Definition sum_list (l : list T) : T :=
  match l with
  | [] => zero
  | a :: r => fold_left add r a
  end.

(** [x.sum(dim=d)]: the extent at position [d] is summed away. *)
Definition tensor_sum (d : nat) (x : Tensor) : result Tensor :=
  if d <? length (dims x) then
    let outer := prod (firstn d (dims x)) in
    let n := nth d (dims x) 0 in
    let inner := prod (skipn (S d) (dims x)) in
    Ok (mkTensor (firstn d (dims x) ++ skipn (S d) (dims x))
          (flat_map (fun o =>
             map (fun i =>
               sum_list (map (fun g => nth ((o * n + g) * inner + i) (data x) zero)
                             (seq 0 n)))
               (seq 0 inner))
             (seq 0 outer)))
  else Err (IndexError "Dimension out of range").

(** [channels // groups] on non-negative integers. *)
Definition floordiv (a b : nat) : result nat :=
  if b =? 0 then Err ZeroDivisionError else Ok (a / b).

(** [channel_squeeze(x, groups)] *)
Definition channel_squeeze (x : Tensor) (groups : nat) : result Tensor :=
  '(batch, channels, height, width) <- size4 x ;;
  channels_per_group <- floordiv channels groups ;;
  v <- view x [batch; channels_per_group; groups; height; width] ;;
  tensor_sum 2 v.

End Tensors.

Arguments mkTensor {T} dims data.
Arguments dims {T} t.
Arguments data {T} t.
Arguments numel {T} x.
Arguments wf_tensor {T} x.
Arguments size4 {T} x.
Arguments view {T} x shape.
Arguments get4 {T} zero x b c h w.
Arguments sum_list {T} add zero l.
Arguments tensor_sum {T} add zero d x.
Arguments channel_squeeze {T} add zero x groups.

(** ** Module descriptions *)

(** Modelled from the spec: the pre-activation 1x1 and 3x3 convolution blocks
    ([pre_conv1x1_block], [pre_conv3x3_block] of pytorchcv.models.common) are
    external collaborators, black-box transforms fixed by their channel
    counts, stride, padding and dilation.  The record keeps the arguments
    of the constructor call; an argument left out of the call is [None]. *)
Record PreConvBlock : Type := mkPreConvBlock {
  pc_kernel : Z;
  pc_in_channels : Z;
  pc_out_channels : Z;
  pc_stride : option Z;
  pc_padding : option Z;
  pc_dilation : option Z
}.

(** Modelled from the spec: the constructor of the external 1x1 block
    (pytorchcv.models.common); it records its arguments. *)
Definition pre_conv1x1_block (in_channels out_channels : Z) (stride : option Z)
  : result PreConvBlock :=
  Ok (mkPreConvBlock 1 in_channels out_channels stride None None).

(** Modelled from the spec: the constructor of the external 3x3 block
    (pytorchcv.models.common); it records its arguments. *)
Definition pre_conv3x3_block (in_channels out_channels stride padding dilation : Z)
  : result PreConvBlock :=
  Ok (mkPreConvBlock 3 in_channels out_channels (Some stride) (Some padding)
        (Some dilation)).

(** [ChannelSqueeze]: the wrapper that keeps the number of groups. *)
Record ChannelSqueeze : Type := mkChannelSqueeze { cs_groups : nat }.

Definition ChannelSqueeze_init (channels : Z) (groups : nat) : result ChannelSqueeze :=
  if (groups =? 0)%nat then Err ZeroDivisionError
  else if negb (channels mod Z.of_nat groups =? 0)%Z
  then Err (ValueError "channels must be divisible by groups")
  else Ok (mkChannelSqueeze groups).

(** [InterpolationBlock] *)
Record InterpolationBlock : Type := mkInterpolationBlock {
  scale_factor : Z;
  mode : string
}.

Definition InterpolationBlock_init (scale_factor : Z) (mode : option string)
  : result InterpolationBlock :=
  Ok (mkInterpolationBlock scale_factor
        (match mode with Some m => m | None => "nearest" end)).

(** [FishBottleneck] *)
Record FishBottleneck : Type := mkFishBottleneck {
  conv1 : PreConvBlock;
  conv2 : PreConvBlock;
  conv3 : PreConvBlock
}.

Definition FishBottleneck_init (in_channels out_channels stride dilation : Z)
  : result FishBottleneck :=
  let mid_channels := (out_channels / 4)%Z in
  c1 <- pre_conv1x1_block in_channels mid_channels None ;;
  c2 <- pre_conv3x3_block mid_channels mid_channels stride dilation dilation ;;
  c3 <- pre_conv1x1_block mid_channels out_channels None ;;
  Ok (mkFishBottleneck c1 c2 c3).

(** [FishBlock]: the attributes [c_squeeze] and [identity_conv] exist only on
    the branch of [__init__] that sets them. *)
Record FishBlock : Type := mkFishBlock {
  squeeze : bool;
  resize_identity : bool;
  body : FishBottleneck;
  c_squeeze : option ChannelSqueeze;
  identity_conv : option PreConvBlock
}.

Definition FishBlock_init (in_channels out_channels stride dilation : Z)
  (squeeze : bool) : result FishBlock :=
  let resize_identity :=
    negb (in_channels =? out_channels)%Z || negb (stride =? 1)%Z in
  body <- FishBottleneck_init in_channels out_channels stride dilation ;;
  if squeeze then
    if (in_channels / 2 =? out_channels)%Z then
      cs <- ChannelSqueeze_init in_channels 2 ;;
      Ok (mkFishBlock squeeze resize_identity body (Some cs) None)
    else Err AssertionError
  else if resize_identity then
    ic <- pre_conv1x1_block in_channels out_channels (Some stride) ;;
    Ok (mkFishBlock squeeze resize_identity body None (Some ic))
  else Ok (mkFishBlock squeeze resize_identity body None None).

(** [nn.Sequential]: modules in insertion order under their names;
    [add_module] replaces a module registered under the same name. *)
Fixpoint add_module {M : Type} (s : list (string * M)) (name : string) (m : M)
  : list (string * M) :=
  match s with
  | [] => [(name, m)]
  | (n, m') :: r =>
      if String.eqb n name then (n, m) :: r else (n, m') :: add_module r name m
  end.

Inductive Layer : Type :=
| LFishBlock (b : FishBlock)
| LMaxPool2d (kernel_size stride : Z)
| LInterpolation (ib : InterpolationBlock).

Definition Sequential : Type := list (string * Layer).

(** The loop shared by the three units:
    [for i, out_channels in enumerate(out_channels_list)]. *)
Fixpoint add_blocks (blocks : Sequential) (i : nat) (in_channels : Z)
  (out_channels_list : list Z) : result Sequential :=
  match out_channels_list with
  | [] => Ok blocks
  | out_channels :: rest =>
      b <- FishBlock_init in_channels out_channels 1 1 false ;;
      add_blocks
        (add_module blocks (String.append "block" (format_int (Z.of_nat (i + 1))))
           (LFishBlock b))
        (S i) out_channels rest
  end.

Record DownUnit : Type := mkDownUnit { down_blocks : Sequential }.
Record UpUnit : Type := mkUpUnit { up_blocks : Sequential }.
Record SkipUnit : Type := mkSkipUnit { skip_blocks : Sequential }.

Definition DownUnit_init (in_channels : Z) (out_channels_list : list Z)
  : result DownUnit :=
  blocks <- add_blocks [] 0 in_channels out_channels_list ;;
  Ok (mkDownUnit (add_module blocks "pool" (LMaxPool2d 2 2))).

Definition UpUnit_init (in_channels : Z) (out_channels_list : list Z)
  : result UpUnit :=
  blocks <- add_blocks [] 0 in_channels out_channels_list ;;
  ib <- InterpolationBlock_init 2 None ;;
  Ok (mkUpUnit (add_module blocks "upsample" (LInterpolation ib))).

Definition SkipUnit_init (in_channels : Z) (out_channels_list : list Z)
  : result SkipUnit :=
  blocks <- add_blocks [] 0 in_channels out_channels_list ;;
  Ok (mkSkipUnit blocks).

(** ** Python sequences and keyword calls *)

(** What the assembler is handed as a channel table: a list, which has a
    length and can be indexed, or a generator (the value of a generator
    expression), which has neither.  A generator carries the elements it
    would yield. *)
Inductive pyseq (A : Type) : Type :=
| PyList (l : list A)
| PyGenerator (l : list A).

Arguments PyList {A} l.
Arguments PyGenerator {A} l.

Definition py_len {A : Type} (s : pyseq A) : result nat :=
  match s with
  | PyList l => Ok (length l)
  | PyGenerator _ => Err (TypeError "object of type 'generator' has no len()")
  end.

Definition py_getitem {A : Type} (s : pyseq A) (i : nat) : result A :=
  match s with
  | PyList l =>
      match nth_error l i with
      | Some a => Ok a
      | None => Err (IndexError "list index out of range")
      end
  | PyGenerator _ => Err (TypeError "'generator' object is not subscriptable")
  end.

(** The elements a sequence holds or yields. *)
Definition py_items {A : Type} (s : pyseq A) : list A :=
  match s with PyList l => l | PyGenerator l => l end.

(** [[c] * n] *)
Definition py_repeat (c n : Z) : pyseq Z := PyList (repeat c (Z.to_nat n)).

(** Arguments of a keyword call. *)
Inductive pyarg : Type :=
| AInt (z : Z)
| AIntList (l : list Z).

Definition keywords : Type := list (string * pyarg).

Definition lookup_keyword (kw : keywords) (name : string) : option pyarg :=
  match find (fun p => String.eqb (fst p) name) kw with
  | Some p => Some (snd p)
  | None => None
  end.

(** Binding the keywords of a call to the parameters of [__init__], all of
    them required: a keyword that names no parameter is refused first, then
    a parameter left without a value. *)
Definition bind_keywords (params : list string) (kw : keywords) : result unit :=
  match find (fun p => negb (existsb (String.eqb (fst p)) params)) kw with
  | Some p =>
      Err (TypeError (String.append "__init__() got an unexpected keyword argument '"
                        (String.append (fst p) "'")))
  | None =>
      match find (fun n => negb (existsb (fun p => String.eqb (fst p) n) kw)) params with
      | Some n =>
          Err (TypeError (String.append "__init__() missing 1 required positional argument: '"
                            (String.append n "'")))
      | None => Ok tt
      end
  end.

(** [DownUnit] called by keywords; its signature is
    [(in_channels, out_channels_list)]. *)
Definition DownUnit_call (kw : keywords) : result DownUnit :=
  _ <- bind_keywords ["in_channels"; "out_channels_list"] kw ;;
  match lookup_keyword kw "in_channels", lookup_keyword kw "out_channels_list" with
  | Some (AInt in_channels), Some (AIntList out_channels_list) =>
      DownUnit_init in_channels out_channels_list
  | _, _ => Err (TypeError "argument of the wrong type")
  end.

(** ** The network assembler *)

Inductive StageUnit : Type :=
| UDown (u : DownUnit)
| UUp (u : UpUnit)
| USkip (u : SkipUnit).

Definition UnitSeq : Type := list (string * StageUnit).

(** Modelled from the spec: the stem ([SEInitBlock]) and the hourglass
    orchestrator ([SesquialteralHourglass]) are external collaborators; the
    assembler's part is the arguments it constructs them with, which the
    nodes below record next to torch's average pooling. *)
Inductive FeatureModule : Type :=
| FSEInitBlock (in_channels out_channels : Z)
| FSesquialteralHourglass (down1_seq skip1_seq up_seq down2_seq skip2_seq : UnitSeq)
| FAvgPool2d (kernel_size stride : Z).

(** Modelled from the spec: the final 1x1 projection ([conv1x1] of
    pytorchcv.models.common), recorded by its channel counts. *)
Inductive OutputModule : Type :=
| OConv1x1 (in_channels out_channels : Z).

Record FishNet : Type := mkFishNet {
  in_size : Z * Z;
  num_classes : Z;
  features : list (string * FeatureModule);
  output : list (string * OutputModule)
}.

Definition channel_table : Type := pyseq (pyseq (pyseq Z)).

Definition stage_name (i : nat) : string :=
  String.append "stage" (format_int (Z.of_nat (i + 1))).

(** One turn of [for i in range(depth + 1)]; the state is
    [(skip1_seq, down1_seq, in_channels)]. *)
Definition stage_step (direct_channels skip_channels : channel_table) (depth : nat)
  (st : UnitSeq * UnitSeq * Z) (i : nat) : result (UnitSeq * UnitSeq * Z) :=
  let '(skip1_seq, down1_seq, in_channels) := st in
  sc0 <- py_getitem skip_channels 0 ;;
  skip1_channels_per_stage <- py_getitem sc0 i ;;
  oc <- py_getitem skip1_channels_per_stage 0 ;;
  ly <- py_len skip1_channels_per_stage ;;
  u <- DownUnit_call [("in_channels", AInt in_channels);
                      ("out_channels", AInt oc);
                      ("layers", AInt (Z.of_nat ly))] ;;
  let skip1_seq := add_module skip1_seq (stage_name i) (UDown u) in
  if i <? depth then
    dc0 <- py_getitem direct_channels 0 ;;
    down1_channels_per_stage <- py_getitem dc0 i ;;
    oc <- py_getitem down1_channels_per_stage 0 ;;
    ly <- py_len down1_channels_per_stage ;;
    u <- DownUnit_call [("in_channels", AInt in_channels);
                        ("out_channels", AInt oc);
                        ("layers", AInt (Z.of_nat ly))] ;;
    let down1_seq := add_module down1_seq (stage_name i) (UDown u) in
    in_channels <- py_getitem down1_channels_per_stage 0 ;;
    Ok (skip1_seq, down1_seq, in_channels)
  else
    in_channels <- py_getitem skip1_channels_per_stage 0 ;;
    Ok (skip1_seq, down1_seq, in_channels).

Fixpoint stage_loop (direct_channels skip_channels : channel_table) (depth : nat)
  (st : UnitSeq * UnitSeq * Z) (range : list nat) : result (UnitSeq * UnitSeq * Z) :=
  match range with
  | [] => Ok st
  | i :: rest =>
      st' <- stage_step direct_channels skip_channels depth st i ;;
      stage_loop direct_channels skip_channels depth st' rest
  end.

(** [FishNet.__init__].  The closing [_init_params] draws the initial
    weights and leaves the module graph as it is; the graph is what is
    returned here. *)
Definition FishNet_init (direct_channels skip_channels : channel_table)
  (init_block_channels in_channels : Z) (in_size : Z * Z) (num_classes : Z)
  : result FishNet :=
  let features :=
    add_module [] "init_block" (FSEInitBlock in_channels init_block_channels) in
  let in_channels := init_block_channels in
  dc0 <- py_getitem direct_channels 0 ;;
  depth <- py_len dc0 ;;
  let down2_seq : UnitSeq := [] in
  let skip2_seq : UnitSeq := [] in
  '(skip1_seq, down1_seq, in_channels) <-
     stage_loop direct_channels skip_channels depth ([], [], in_channels)
       (seq 0 (depth + 1)) ;;
  let up_seq : UnitSeq := [] in
  let features :=
    add_module features "sesquialteral_hourglass"
      (FSesquialteralHourglass down1_seq skip1_seq up_seq down2_seq skip2_seq) in
  let features := add_module features "final_pool" (FAvgPool2d 7 1) in
  let output := add_module [] "final_conv" (OConv1x1 in_channels num_classes) in
  Ok (mkFishNet in_size num_classes features output).

(** ** The build entry point *)

(** The keyword arguments [get_fishnet] passes on to [FishNet]. *)
Record FishNet_kwargs : Type := mkKwargs {
  kw_in_channels : option Z;
  kw_in_size : option (Z * Z);
  kw_num_classes : option Z
}.

Definition no_kwargs : FishNet_kwargs := mkKwargs None None None.

Definition or_default {A : Type} (o : option A) (d : A) : A :=
  match o with Some a => a | None => d end.

Definition unsupported (blocks : Z) : exn :=
  ValueError (String.append "Unsupported FishNet with number of blocks: "
                (format_int blocks)).

(** The hyper-parameter table: [(direct_layers, skip_layers,
    direct_channels_per_layers, skip_channels_per_layers)]. *)
Definition variant_table (blocks : Z)
  : result (list (list Z) * list (list Z) * list (list Z) * list (list Z)) :=
  if (blocks =? 99)%Z then Err (unsupported blocks)
  else if (blocks =? 150)%Z then
    Ok ([[2; 4; 8]; [2; 2; 2]; [2; 2; 4]],
        [[2; 2; 2; 2]; [2; 2; 2; 2]],
        [[128; 256; 512]; [512; 512; 384]; [256; 320; 832]],
        [[64; 128; 256; 512]; [64; 128; 256; 512]])%Z
  else Err (unsupported blocks).

(** [[([cij] * lij for (cij, lij) in zip(ci, li)) for (ci, li) in zip(c, l)]]:
    a list whose elements are generator expressions. *)
Definition expand_channels (channels_per_layers layers : list (list Z))
  : channel_table :=
  PyList (map (fun cl : list Z * list Z =>
                 PyGenerator (map (fun p : Z * Z => py_repeat (fst p) (snd p))
                                  (combine (fst cl) (snd cl))))
              (combine channels_per_layers layers)).

Definition model_name_missing : exn :=
  ValueError
    "Parameter `model_name` should be properly initialized for loading pretrained model.".

Section Build.

(** [download_model] of the model store, an external collaborator. *)
Variable download_model : FishNet -> string -> string -> result unit.

(** The tail of [get_fishnet]: [if pretrained: ...]. *)
Definition load_pretrained (net : FishNet) (model_name : option string)
  (pretrained : bool) (root : string) : result unit :=
  if pretrained then
    match model_name with
    | None => Err model_name_missing
    | Some name =>
        if String.eqb name EmptyString then Err model_name_missing
        else download_model net name root
    end
  else Ok tt.

Definition get_fishnet (blocks : Z) (model_name : option string) (pretrained : bool)
  (root : string) (kwargs : FishNet_kwargs) : result FishNet :=
  '(direct_layers, skip_layers, direct_channels_per_layers, skip_channels_per_layers)
     <- variant_table blocks ;;
  let direct_channels := expand_channels direct_channels_per_layers direct_layers in
  let skip_channels := expand_channels skip_channels_per_layers skip_layers in
  let init_block_channels := 64%Z in
  net <- FishNet_init direct_channels skip_channels init_block_channels
           (or_default (kw_in_channels kwargs) 3%Z)
           (or_default (kw_in_size kwargs) (224, 224)%Z)
           (or_default (kw_num_classes kwargs) 1000%Z) ;;
  _ <- load_pretrained net model_name pretrained root ;;
  Ok net.

Definition default_root : string := "~/.torch/models".

Definition fishnet99 (pretrained : bool) (kwargs : FishNet_kwargs) : result FishNet :=
  get_fishnet 99 (Some "fishnet99") pretrained default_root kwargs.

Definition fishnet150 (pretrained : bool) (kwargs : FishNet_kwargs) : result FishNet :=
  get_fishnet 150 (Some "fishnet150") pretrained default_root kwargs.

End Build.

(** ** Evaluation *)

Section Forward.

Variable T : Type.
Variable add : T -> T -> T.
Variable zero : T.

(** The external transforms: what a pre-activation convolution block
    computes (its learned weights are inside the function), max pooling,
    the resampling kernels behind [F.interpolate], and [+] on tensors of
    different shapes (broadcasting). *)
Variable pre_conv_forward : PreConvBlock -> Tensor T -> result (Tensor T).
Variable max_pool2d : Z -> Z -> Tensor T -> result (Tensor T).
Variable resample : string -> option bool -> Z -> Tensor T -> result (Tensor T).
Variable broadcast_add : Tensor T -> Tensor T -> result (Tensor T).

Fixpoint map2 (f : T -> T -> T) (l1 l2 : list T) : list T :=
  match l1, l2 with
  | a :: r1, b :: r2 => f a b :: map2 f r1 r2
  | _, _ => []
  end.

(** [x + y] *)
Definition tensor_add (x y : Tensor T) : result (Tensor T) :=
  if list_eq_dec Nat.eq_dec (dims x) (dims y)
  then Ok (mkTensor (dims x) (map2 add (data x) (data y)))
  else broadcast_add x y.

(** [F.interpolate(input, scale_factor, mode, align_corners)]: torch checks
    its arguments before it resamples, and refuses [align_corners] for the
    modes that do not interpolate (nearest, area, nearest-exact). *)
Definition F_interpolate (input : Tensor T) (scale_factor : Z) (mode : string)
  (align_corners : option bool) : result (Tensor T) :=
  if String.eqb mode "nearest" || String.eqb mode "area"
     || String.eqb mode "nearest-exact" then
    match align_corners with
    | Some _ =>
        Err (ValueError
          "align_corners option can only be set with the interpolating modes: linear | bilinear | bicubic | trilinear")
    | None => resample mode None scale_factor input
    end
  else resample mode (Some (or_default align_corners false)) scale_factor input.

Definition ChannelSqueeze_forward (m : ChannelSqueeze) (x : Tensor T)
  : result (Tensor T) :=
  channel_squeeze add zero x (cs_groups m).

Definition InterpolationBlock_forward (m : InterpolationBlock) (x : Tensor T)
  : result (Tensor T) :=
  F_interpolate x (scale_factor m) (mode m) (Some true).

Definition FishBottleneck_forward (m : FishBottleneck) (x : Tensor T)
  : result (Tensor T) :=
  x <- pre_conv_forward (conv1 m) x ;;
  x <- pre_conv_forward (conv2 m) x ;;
  x <- pre_conv_forward (conv3 m) x ;;
  Ok x.

Definition FishBlock_forward (m : FishBlock) (x : Tensor T) : result (Tensor T) :=
  identity <-
    (if squeeze m then
       match c_squeeze m with
       | Some cs => ChannelSqueeze_forward cs x
       | None => Err (AttributeError "c_squeeze")
       end
     else if resize_identity m then
       match identity_conv m with
       | Some ic => pre_conv_forward ic x
       | None => Err (AttributeError "identity_conv")
       end
     else Ok x) ;;
  x <- FishBottleneck_forward (body m) x ;;
  tensor_add x identity.

Definition Layer_forward (l : Layer) (x : Tensor T) : result (Tensor T) :=
  match l with
  | LFishBlock b => FishBlock_forward b x
  | LMaxPool2d kernel_size stride => max_pool2d kernel_size stride x
  | LInterpolation ib => InterpolationBlock_forward ib x
  end.

(** [nn.Sequential.forward]: the modules in order. *)
Fixpoint Sequential_forward (s : Sequential) (x : Tensor T) : result (Tensor T) :=
  match s with
  | [] => Ok x
  | (_, l) :: r => y <- Layer_forward l x ;; Sequential_forward r y
  end.

Definition DownUnit_forward (m : DownUnit) (x : Tensor T) : result (Tensor T) :=
  Sequential_forward (down_blocks m) x.

Definition UpUnit_forward (m : UpUnit) (x : Tensor T) : result (Tensor T) :=
  Sequential_forward (up_blocks m) x.

Definition SkipUnit_forward (m : SkipUnit) (x : Tensor T) : result (Tensor T) :=
  Sequential_forward (skip_blocks m) x.

(** *** The shortcut policy in the words of the specification

    A tagged variant chosen once at construction, to be compared with the
    flags and optional attributes [FishBlock] keeps. *)
Inductive Shortcut : Type :=
| SqueezeShortcut (groups : nat)
| ProjectionShortcut (in_channels out_channels stride : Z)
| IdentityShortcut.

Definition shortcut_policy (in_channels out_channels stride : Z) (squeeze : bool)
  : Shortcut :=
  if squeeze then SqueezeShortcut 2
  else if negb (in_channels =? out_channels)%Z || negb (stride =? 1)%Z
  then ProjectionShortcut in_channels out_channels stride
  else IdentityShortcut.

Definition Shortcut_forward (s : Shortcut) (x : Tensor T) : result (Tensor T) :=
  match s with
  | SqueezeShortcut groups => channel_squeeze add zero x groups
  | ProjectionShortcut in_channels out_channels stride =>
      p <- pre_conv1x1_block in_channels out_channels (Some stride) ;;
      pre_conv_forward p x
  | IdentityShortcut => Ok x
  end.

End Forward.

(** ** Evaluation of the network *)

Section NetForward.

Variable T : Type.

(** The external transforms of the stem, the hourglass and the average
    pooling, and of the final projection. *)
Variable feature_forward : FeatureModule -> Tensor T -> result (Tensor T).
Variable output_forward : OutputModule -> Tensor T -> result (Tensor T).

(** [nn.Sequential.forward] over modules run by [f]. *)
Fixpoint modules_forward {M : Type} (f : M -> Tensor T -> result (Tensor T))
  (s : list (string * M)) (x : Tensor T) : result (Tensor T) :=
  match s with
  | [] => Ok x
  | (_, m) :: r => y <- f m x ;; modules_forward f r y
  end.

(** [x.size(0)] *)
Definition size0 (x : Tensor T) : result nat :=
  match dims x with
  | [] => Err (IndexError "Dimension specified as 0 but tensor has no dimensions")
  | b :: _ => Ok b
  end.

(** [x.view(rows, -1)]: the second extent is inferred from the element
    count; with no rows there is nothing to infer it from. *)
Definition view_rows (x : Tensor T) (rows : nat) : result (Tensor T) :=
  if rows =? 0 then
    if numel x =? 0
    then Err (RuntimeError "cannot reshape tensor of 0 elements: the unspecified dimension is ambiguous")
    else Err (RuntimeError "shape is invalid for input of this size")
  else if numel x mod rows =? 0
  then Ok (mkTensor [rows; numel x / rows] (data x))
  else Err (RuntimeError "shape is invalid for input of this size").

(** [FishNet.forward] *)
Definition FishNet_forward (net : FishNet) (x : Tensor T) : result (Tensor T) :=
  x <- modules_forward feature_forward (features net) x ;;
  x <- modules_forward output_forward (output net) x ;;
  rows <- size0 x ;;
  view_rows x rows.

End NetForward.

(** ** Notions the properties are stated with *)

(** The interleaved partition of the channels: channel [c] belongs to
    group [c mod groups]. *)
Definition group_of (groups c : nat) : nat := c mod groups.

(** The channels of group [g] among [C] channels, in increasing order. *)
Definition group_channels (groups C g : nat) : list nat :=
  filter (fun c => group_of groups c =? g) (seq 0 C).

(** The two channel halves of a tensor of shape [(B, 2 n, H, W)] are equal. *)
Definition halves_equal {T : Type} (zero : T) (x : Tensor T) (B n H W : nat) : Prop :=
  forall b c h w, b < B -> c < n -> h < H -> w < W ->
    get4 zero x b c h w = get4 zero x b (n + c) h w.

(** The two interleaved groups of a tensor of shape [(B, 2 n, H, W)], its
    even and its odd channels, are equal. *)
Definition groups_equal {T : Type} (zero : T) (x : Tensor T) (B n H W : nat) : Prop :=
  forall b k h w, b < B -> k < n -> h < H -> w < W ->
    get4 zero x b (2 * k) h w = get4 zero x b (2 * k + 1) h w.

(** "Squeezing a tensor whose two channel halves are equal gives twice
    either half." *)
Definition squeeze_of_equal_halves_doubles (T : Type) (add : T -> T -> T) (zero : T)
  : Prop :=
  forall (x : Tensor T) (B n H W : nat),
    wf_tensor x -> dims x = [B; 2 * n; H; W] -> halves_equal zero x B n H W ->
    exists y,
      channel_squeeze add zero x 2 = Ok y /\
      dims y = [B; n; H; W] /\
      forall b k h w, b < B -> k < n -> h < H -> w < W ->
        get4 zero y b k h w = add (get4 zero x b k h w) (get4 zero x b k h w).

(** "Constructing a bottleneck whose [out_channels] is not divisible by 4
    raises an error." *)
Definition bottleneck_rejects_non_multiple_of_4 : Prop :=
  forall in_channels out_channels stride dilation : Z,
    (out_channels mod 4 <> 0)%Z ->
    exists e, FishBottleneck_init in_channels out_channels stride dilation = Err e.

(** "Constructing a squeeze block succeeds whenever
    [in_channels // 2 == out_channels]." *)
Definition squeeze_block_accepts_floor_half : Prop :=
  forall in_channels out_channels stride dilation : Z,
    (in_channels / 2 = out_channels)%Z ->
    exists blk, FishBlock_init in_channels out_channels stride dilation true = Ok blk.

(** The variant codes the build entry point accepts. *)
Definition supported (blocks : Z) : Prop := blocks = 150%Z.

(** "Every unsupported code raises the unsupported-variant error, code 99
    among them, and the entry point raises nothing else." *)
Definition unsupported_is_only_error
  (download_model : FishNet -> string -> string -> result unit) : Prop :=
  (forall blocks model_name pretrained root kwargs,
     ~ supported blocks ->
     get_fishnet download_model blocks model_name pretrained root kwargs
     = Err (unsupported blocks)) /\
  (forall pretrained kwargs,
     fishnet99 download_model pretrained kwargs = Err (unsupported 99)) /\
  (forall blocks model_name pretrained root kwargs e,
     get_fishnet download_model blocks model_name pretrained root kwargs = Err e ->
     ~ supported blocks /\ e = unsupported blocks).

(** A channel table in the form the docstring of [FishNet] asks for, a list
    of lists of lists: every generator replaced by the list of what it
    yields. *)
Definition as_lists (t : channel_table) : channel_table :=
  PyList (map (fun s => PyList (py_items s)) (py_items t)).

(** The name a unit registers its block number [i] under, counting from 0. *)
Definition block_name (i : nat) : string :=
  String.append "block" (format_int (Z.of_nat (i + 1))).

(** What a block built with the defaults for the pair [(a, b)] holds: no
    squeeze, the bottleneck of these widths with stride and dilation 1, and
    as shortcut the 1x1 projection of stride 1 when the widths differ,
    nothing when they agree. *)
Definition is_default_block (layer : string * Layer) (ch : Z * Z) : Prop :=
  exists blk,
    snd layer = LFishBlock blk /\
    squeeze blk = false /\ c_squeeze blk = None /\
    FishBottleneck_init (fst ch) (snd ch) 1 1 = Ok (body blk) /\
    resize_identity blk = negb (fst ch =? snd ch)%Z /\
    (fst ch = snd ch -> identity_conv blk = None) /\
    (fst ch <> snd ch ->
     exists ic, pre_conv1x1_block (fst ch) (snd ch) (Some 1%Z) = Ok ic /\
                identity_conv blk = Some ic).

(** * Properties *)

(** ** Generic facts *)

Lemma bind_ok_inv {A B : Type} (m : result A) (k : A -> result B) (b : B) :
  bind m k = Ok b -> exists a, m = Ok a /\ k a = Ok b.
Proof.
  destruct m as [a | e]; simpl; intros H.
  - exists a. split; [reflexivity | exact H].
  - discriminate H.
Qed.

Lemma bind_err {A B : Type} (m : result A) (k : A -> result B) (e : exn) :
  m = Err e -> bind m k = Err e.
Proof. intros ->. reflexivity. Qed.

(** Reading a table laid out block by block: the [i]-th element of the
    [o]-th block. *)
Lemma nth_flat_map_block {X : Type} (F : nat -> list X) (m : nat) (d : X) :
  (forall o, length (F o) = m) ->
  forall n s o i, o < n -> i < m ->
    nth (o * m + i) (flat_map F (seq s n)) d = nth i (F (s + o)) d.
Proof.
  intros HF n. induction n as [| n IH]; intros s o i Ho Hi.
  - lia.
  - simpl. destruct o as [| o].
    + rewrite app_nth1 by (rewrite HF; lia).
      simpl. now rewrite Nat.add_0_r.
    + rewrite app_nth2 by (rewrite HF; simpl; lia).
      rewrite HF.
      replace (S o * m + i - m) with (o * m + i) by (simpl; lia).
      rewrite IH by lia.
      now replace (S s + o) with (s + S o) by lia.
Qed.

Lemma length_flat_map_block {X : Type} (F : nat -> list X) (m : nat) :
  (forall o, length (F o) = m) ->
  forall n s, length (flat_map F (seq s n)) = n * m.
Proof.
  intros HF n. induction n as [| n IH]; intros s; simpl.
  - reflexivity.
  - rewrite length_app, HF, IH. reflexivity.
Qed.

Lemma nth_map_seq {X : Type} (f : nat -> X) (d : X) (n i : nat) :
  i < n -> nth i (map f (seq 0 n)) d = f i.
Proof.
  intros Hi.
  rewrite (nth_indep _ d (f 0)) by (now rewrite length_map, length_seq).
  rewrite (map_nth f (seq 0 n) 0 i).
  now rewrite seq_nth.
Qed.

(** ** The interleaved partition *)

(** Comparisons on [nat] in hypotheses, from [bool] to [Prop]. *)
Ltac nat_bools :=
  repeat match goal with
  | H : (_ <=? _) = true |- _ => apply Nat.leb_le in H
  | H : (_ <=? _) = false |- _ => apply Nat.leb_gt in H
  | H : (_ <? _) = true |- _ => apply Nat.ltb_lt in H
  | H : (_ <? _) = false |- _ => apply Nat.ltb_ge in H
  | H : (_ =? _) = true |- _ => apply Nat.eqb_eq in H
  | H : (_ =? _) = false |- _ => apply Nat.eqb_neq in H
  end.

Lemma filter_eqb_seq (g len s : nat) :
  filter (fun j => j =? g) (seq s len) =
  if (s <=? g) && (g <? s + len) then [g] else [].
Proof.
  revert s. induction len as [| len IH]; intros s; simpl.
  - destruct (s <=? g) eqn:E1, (g <? s + 0) eqn:E2; simpl; try reflexivity.
    nat_bools. lia.
  - rewrite IH. destruct (s =? g) eqn:E.
    + apply Nat.eqb_eq in E. subst g.
      replace (S s <=? s) with false by (symmetry; apply Nat.leb_gt; lia).
      replace (s <=? s) with true by (symmetry; apply Nat.leb_le; lia).
      replace (s <? s + S len) with true by (symmetry; apply Nat.ltb_lt; lia).
      reflexivity.
    + apply Nat.eqb_neq in E.
      destruct (S s <=? g) eqn:E1, (g <? S s + len) eqn:E2;
        destruct (s <=? g) eqn:E3, (g <? s + S len) eqn:E4; simpl; try reflexivity;
        nat_bools; lia.
Qed.

Lemma seq_offset (s len : nat) : seq s len = map (fun j => s + j) (seq 0 len).
Proof.
  revert s. induction len as [| len IH]; intros s; simpl.
  - reflexivity.
  - rewrite Nat.add_0_r. f_equal.
    rewrite (IH (S s)), <- (seq_shift len 0), map_map.
    apply map_ext. intros j. lia.
Qed.

Lemma group_chunk (G g n : nat) :
  0 < G -> g < G ->
  filter (fun c => group_of G c =? g) (seq (n * G) G) = [n * G + g].
Proof.
  intros HG Hg.
  rewrite seq_offset.
  assert (Hf : forall l, Forall (fun j => j < G) l ->
             filter (fun c => group_of G c =? g) (map (fun j => n * G + j) l)
             = map (fun j => n * G + j) (filter (fun j => j =? g) l)).
  { induction l as [| j l IH]; intros HF; simpl; [reflexivity |].
    inversion HF as [| ? ? Hj HF']; subst.
    unfold group_of at 1.
    replace ((n * G + j) mod G) with j
      by (rewrite Nat.add_comm, Nat.Div0.mod_add; symmetry; now apply Nat.mod_small).
    destruct (j =? g); simpl; now rewrite IH. }
  rewrite Hf.
  - rewrite filter_eqb_seq. simpl.
    replace (g <? G) with true by (symmetry; now apply Nat.ltb_lt).
    reflexivity.
  - apply Forall_forall. intros j Hj. apply in_seq in Hj. lia.
Qed.

(** Group [g] of [n * G] channels is [g, G + g, 2 G + g, ...]: it has [n]
    channels and its [k]-th channel is [k * G + g]. *)
Lemma group_channels_spec (G g n : nat) :
  0 < G -> g < G ->
  length (group_channels G (n * G) g) = n /\
  forall k, k < n -> nth k (group_channels G (n * G) g) 0 = k * G + g.
Proof.
  intros HG Hg. unfold group_channels.
  induction n as [| n [IHlen IHnth]].
  - simpl. split; [reflexivity | intros; lia].
  - replace (S n * G) with (n * G + G) by (simpl; lia).
    rewrite seq_app, filter_app. simpl (0 + n * G).
    rewrite group_chunk by assumption.
    split.
    + rewrite length_app, IHlen. simpl. lia.
    + intros k Hk. destruct (Nat.eq_dec k n) as [-> | Hne].
      * rewrite app_nth2 by (rewrite IHlen; lia).
        rewrite IHlen, Nat.sub_diag. reflexivity.
      * rewrite app_nth1 by (rewrite IHlen; lia).
        apply IHnth. lia.
Qed.

(** ** Channel squeeze *)

Section ChannelSqueezeFacts.

Variable T : Type.
Variable add : T -> T -> T.
Variable zero : T.

(** What [channel_squeeze] computes on a well-formed 4D tensor whose channel
    count is a multiple of [groups]: the result and each of its elements. *)
Lemma channel_squeeze_eval (x : Tensor T) (B n G H W : nat) :
  wf_tensor x -> dims x = [B; n * G; H; W] -> 0 < G ->
  exists y,
    channel_squeeze add zero x G = Ok y /\
    dims y = [B; n; H; W] /\
    wf_tensor y /\
    forall b k h w, b < B -> k < n -> h < H -> w < W ->
      get4 zero y b k h w =
      sum_list add zero (map (fun g => get4 zero x b (k * G + g) h w) (seq 0 G)).
Proof.
  intros Hwf Hdims HG.
  unfold wf_tensor in Hwf. rewrite Hdims in Hwf.
  unfold channel_squeeze, size4. rewrite Hdims. simpl bind.
  unfold floordiv.
  replace (G =? 0) with false by (symmetry; apply Nat.eqb_neq; lia).
  simpl bind. rewrite Nat.div_mul by lia.
  unfold view, numel.
  replace (prod [B; n; G; H; W] =? length (data x)) with true.
  2:{ symmetry. apply Nat.eqb_eq. rewrite Hwf. unfold prod. simpl. ring. }
  simpl bind. unfold tensor_sum. simpl dims. simpl data.
  cbn [length Nat.ltb Nat.leb firstn skipn nth app].
  set (inner := prod [H; W]).
  set (outer := prod [B; n]).
  set (F := fun o : nat =>
              map (fun i : nat =>
                     sum_list add zero
                       (map (fun g : nat => nth ((o * G + g) * inner + i) (data x) zero)
                            (seq 0 G)))
                  (seq 0 inner)).
  assert (HF : forall o, length (F o) = inner).
  { intros o. unfold F. now rewrite length_map, length_seq. }
  eexists. split; [reflexivity |]. simpl dims. simpl data.
  split; [reflexivity |]. split.
  - unfold wf_tensor. simpl dims. simpl data.
    rewrite (length_flat_map_block F inner HF).
    unfold outer, inner, prod. simpl. ring.
  - intros b k h w Hb Hk Hh Hw.
    unfold get4 at 1. simpl dims. simpl data. cbv iota.
    assert (Hi : h * W + w < inner).
    { unfold inner, prod. simpl. nia. }
    assert (Ho : b * n + k < outer).
    { unfold outer, prod. simpl. nia. }
    replace (((b * n + k) * H + h) * W + w) with ((b * n + k) * inner + (h * W + w))
      by (unfold inner, prod; simpl; ring).
    rewrite (nth_flat_map_block F inner zero HF outer 0 _ _ Ho Hi).
    simpl (0 + _). unfold F. rewrite nth_map_seq by exact Hi.
    f_equal. apply map_ext. intros g.
    unfold get4. rewrite Hdims. f_equal.
    unfold inner, prod. simpl. ring.
Qed.

(** C3. For a well-formed tensor [x] of shape [(B, C, H, W)] with [C]
    divisible by [groups], [channel_squeeze x groups] returns a
    well-formed tensor of shape [(B, C / groups, H, W)]; its channel [k] is the
    element-wise sum over [g < groups] of the input channel
    [k * groups + g], which is the [k]-th channel of group [g] under the
    interleaved partition where channel [c] belongs to group
    [c mod groups], every group having [C / groups] channels. *)
Theorem channel_squeeze_interleaved_sum (x : Tensor T) (B C H W groups : nat) :
  wf_tensor x -> dims x = [B; C; H; W] -> 0 < groups -> C mod groups = 0 ->
  exists y,
    channel_squeeze add zero x groups = Ok y /\
    dims y = [B; C / groups; H; W] /\
    wf_tensor y /\
    (forall g, g < groups -> length (group_channels groups C g) = C / groups) /\
    (forall c, c < C -> group_of groups c < groups /\
                        nth (c / groups) (group_channels groups C (group_of groups c)) 0 = c) /\
    forall b k h w, b < B -> k < C / groups -> h < H -> w < W ->
      get4 zero y b k h w =
        sum_list add zero (map (fun g => get4 zero x b (k * groups + g) h w) (seq 0 groups)) /\
      get4 zero y b k h w =
        sum_list add zero (map (fun g => get4 zero x b (nth k (group_channels groups C g) 0) h w)
                      (seq 0 groups)).
Proof.
  intros Hwf Hdims HG Hmod.
  assert (HC : C = (C / groups) * groups).
  { rewrite Nat.mul_comm. apply Nat.Div0.div_exact. exact Hmod. }
  set (n := C / groups) in *.
  rewrite HC in Hdims.
  destruct (channel_squeeze_eval x B n groups H W Hwf Hdims HG)
    as (y & Hy & Hdy & Hwy & Hget).
  assert (Hg_lt : forall c, group_of groups c < groups).
  { intros c. unfold group_of. apply Nat.mod_upper_bound. lia. }
  exists y. split; [exact Hy |]. split; [exact Hdy |]. split; [exact Hwy |].
  split; [| split].
  - intros g Hg. rewrite HC.
    exact (proj1 (group_channels_spec groups g n HG Hg)).
  - intros c Hc. split; [apply Hg_lt |].
    rewrite HC.
    rewrite (proj2 (group_channels_spec groups (group_of groups c) n HG (Hg_lt c))).
    + unfold group_of. pose proof (Nat.div_mod_eq c groups). lia.
    + apply Nat.Div0.div_lt_upper_bound. lia.
  - intros b k h w Hb Hk Hh Hw. split; [now apply Hget |].
    rewrite Hget by assumption.
    f_equal. apply map_ext_in. intros g Hg. apply in_seq in Hg.
    rewrite HC.
    rewrite (proj2 (group_channels_spec groups g n HG ltac:(lia))) by exact Hk.
    reflexivity.
Qed.

End ChannelSqueezeFacts.

Lemma channel_squeeze_interleaved_sum_witness :
  exists y,
    channel_squeeze Z.add 0%Z (mkTensor [1; 4; 1; 2] [1; 2; 3; 4; 5; 6; 7; 8]%Z) 2 = Ok y /\
    dims y = [1; 2; 1; 2] /\
    get4 0%Z y 0 1 0 0 = 12%Z.
Proof.
  destruct (channel_squeeze_interleaved_sum Z Z.add 0%Z
              (mkTensor [1; 4; 1; 2] [1; 2; 3; 4; 5; 6; 7; 8]%Z) 1 4 1 2 2)
    as (y & Hy & Hd & _ & _ & _ & Hget).
  - reflexivity.
  - reflexivity.
  - lia.
  - reflexivity.
  - exists y. split; [exact Hy |]. split; [exact Hd |].
    pose proof (Hget 0 1 0 0 ltac:(cbn; lia) ltac:(cbn; lia) ltac:(cbn; lia)
                  ltac:(cbn; lia)) as [H1 _].
    rewrite H1. reflexivity.
Defined.

Section EqualGroups.

Variable T : Type.
Variable add : T -> T -> T.
Variable zero : T.

(** C7, amended. For a well-formed tensor [x] of shape [(B, 2 n, H, W)]
    whose two interleaved groups are equal (channel [2 k] equals channel
    [2 k + 1]), [channel_squeeze x 2] is a well-formed tensor of shape
    [(B, n, H, W)] equal to twice either group: its channel [k] is
    channel [2 k] of [x] added to itself, and channel [2 k + 1] of [x]
    added to itself. *)
Theorem channel_squeeze_equal_groups (x : Tensor T) (B n H W : nat) :
  wf_tensor x -> dims x = [B; 2 * n; H; W] -> groups_equal zero x B n H W ->
  exists y,
    channel_squeeze add zero x 2 = Ok y /\
    dims y = [B; n; H; W] /\
    wf_tensor y /\
    forall b k h w, b < B -> k < n -> h < H -> w < W ->
      get4 zero y b k h w = add (get4 zero x b (2 * k) h w) (get4 zero x b (2 * k) h w) /\
      get4 zero y b k h w =
        add (get4 zero x b (2 * k + 1) h w) (get4 zero x b (2 * k + 1) h w).
Proof.
  intros Hwf Hdims Heq.
  rewrite (Nat.mul_comm 2 n) in Hdims.
  destruct (channel_squeeze_eval T add zero x B n 2 H W Hwf Hdims ltac:(lia))
    as (y & Hy & Hdy & Hwy & Hget).
  exists y. split; [exact Hy |]. split; [exact Hdy |]. split; [exact Hwy |].
  intros b k h w Hb Hk Hh Hw.
  rewrite (Hget b k h w Hb Hk Hh Hw).
  cbn [seq map sum_list fold_left].
  rewrite (Nat.mul_comm k 2), Nat.add_0_r.
  split.
  - now rewrite <- (Heq b k h w Hb Hk Hh Hw).
  - now rewrite (Heq b k h w Hb Hk Hh Hw).
Qed.

End EqualGroups.

Lemma channel_squeeze_equal_groups_witness :
  exists y,
    channel_squeeze Z.add 0%Z (mkTensor [1; 4; 1; 1] [1; 1; 2; 2]%Z) 2 = Ok y /\
    dims y = [1; 2; 1; 1] /\
    get4 0%Z y 0 1 0 0 = 4%Z.
Proof.
  destruct (channel_squeeze_equal_groups Z Z.add 0%Z
              (mkTensor [1; 4; 1; 1] [1; 1; 2; 2]%Z) 1 2 1 1)
    as (y & Hy & Hd & _ & Hget).
  - reflexivity.
  - reflexivity.
  - intros b k h w Hb Hk Hh Hw.
    assert (b = 0) by lia. assert (h = 0) by lia. assert (w = 0) by lia.
    assert (k = 0 \/ k = 1) as [-> | ->] by lia; subst; reflexivity.
  - exists y. split; [exact Hy |]. split; [exact Hd |].
    pose proof (Hget 0 1 0 0 ltac:(cbn; lia) ltac:(cbn; lia) ltac:(cbn; lia)
                  ltac:(cbn; lia)) as [H1 _].
    rewrite H1. reflexivity.
Defined.

(** C7, as stated, fails: the tensor with channels [1, 2, 1, 2] has equal
    halves [1, 2], and its squeeze is [3, 3], not [2, 4]. *)
Lemma squeeze_of_equal_halves_counterexample :
  ~ squeeze_of_equal_halves_doubles Z Z.add 0%Z.
Proof.
  intros Hclaim.
  destruct (Hclaim (mkTensor [1; 4; 1; 1] [1; 2; 1; 2]%Z) 1 2 1 1)
    as (y & Hy & _ & Hget).
  - reflexivity.
  - reflexivity.
  - intros b c h w Hb Hc Hh Hw.
    assert (b = 0) by lia. assert (h = 0) by lia. assert (w = 0) by lia.
    assert (c = 0 \/ c = 1) as [-> | ->] by lia; subst; reflexivity.
  - vm_compute in Hy. injection Hy as <-.
    specialize (Hget 0 0 0 0 ltac:(lia) ltac:(lia) ltac:(lia) ltac:(lia)).
    vm_compute in Hget. discriminate Hget.
Qed.

(** ** Bottleneck and block construction *)

Lemma FishBottleneck_init_ok (in_channels out_channels stride dilation : Z) :
  FishBottleneck_init in_channels out_channels stride dilation =
  Ok (mkFishBottleneck
        (mkPreConvBlock 1 in_channels (out_channels / 4) None None None)
        (mkPreConvBlock 3 (out_channels / 4) (out_channels / 4)
           (Some stride) (Some dilation) (Some dilation))
        (mkPreConvBlock 1 (out_channels / 4) out_channels None None None)).
Proof. reflexivity. Qed.

(** C8, amended. Constructing a bottleneck raises no error whatever
    [out_channels] is: the middle width is the floor of [out_channels / 4],
    used by the first convolution's output, both sides of the second and
    the third's input, and the last convolution restores [out_channels]. *)
Theorem FishBottleneck_init_floors (in_channels out_channels stride dilation : Z) :
  exists m,
    FishBottleneck_init in_channels out_channels stride dilation = Ok m /\
    pc_in_channels (conv1 m) = in_channels /\
    pc_out_channels (conv1 m) = (out_channels / 4)%Z /\
    pc_in_channels (conv2 m) = (out_channels / 4)%Z /\
    pc_out_channels (conv2 m) = (out_channels / 4)%Z /\
    pc_in_channels (conv3 m) = (out_channels / 4)%Z /\
    pc_out_channels (conv3 m) = out_channels /\
    (4 * (out_channels / 4) <= out_channels < 4 * (out_channels / 4) + 4)%Z.
Proof.
  rewrite FishBottleneck_init_ok.
  eexists. split; [reflexivity |].
  cbn [conv1 conv2 conv3 pc_in_channels pc_out_channels].
  repeat (split; [reflexivity |]).
  pose proof (Z.div_mod out_channels 4 ltac:(lia)).
  pose proof (Z.mod_pos_bound out_channels 4 ltac:(lia)).
  lia.
Qed.

(** C8, as stated, fails: [FishBottleneck(64, 6, 1, 1)] is built, with
    middle width 1. *)
Lemma bottleneck_rejects_counterexample : ~ bottleneck_rejects_non_multiple_of_4.
Proof.
  intros Hclaim.
  destruct (Hclaim 64 6 1 1)%Z as [e He].
  - vm_compute. discriminate.
  - vm_compute in He. discriminate He.
Qed.

Lemma FishBottleneck_init_6 :
  FishBottleneck_init 64 6 1 1 =
  Ok (mkFishBottleneck
        (mkPreConvBlock 1 64 1 None None None)
        (mkPreConvBlock 3 1 1 (Some 1%Z) (Some 1%Z) (Some 1%Z))
        (mkPreConvBlock 1 1 6 None None None)).
Proof. reflexivity. Qed.

Lemma ChannelSqueeze_init_2 (channels : Z) :
  ChannelSqueeze_init channels 2 =
  if (channels mod 2 =? 0)%Z then Ok (mkChannelSqueeze 2)
  else Err (ValueError "channels must be divisible by groups").
Proof.
  unfold ChannelSqueeze_init. simpl (2 =? 0). cbv iota.
  change (Z.of_nat 2) with 2%Z.
  now destruct (channels mod 2 =? 0)%Z.
Qed.

(** C10, amended. With [squeeze = True], the assertion
    [in_channels // 2 == out_channels] alone does not decide construction:
    the block is built exactly when [in_channels = 2 * out_channels]; for an
    odd [in_channels] with [in_channels // 2 = out_channels] the assertion
    passes and the [ChannelSqueeze] constructor then raises its
    divisibility error; when [in_channels // 2 <> out_channels] the
    assertion fails. *)
Theorem FishBlock_init_squeeze (in_channels out_channels stride dilation : Z) :
  ((in_channels = 2 * out_channels)%Z <->
   exists blk, FishBlock_init in_channels out_channels stride dilation true = Ok blk) /\
  ((in_channels / 2 = out_channels)%Z -> (in_channels mod 2 <> 0)%Z ->
   FishBlock_init in_channels out_channels stride dilation true
   = Err (ValueError "channels must be divisible by groups")) /\
  ((in_channels / 2 <> out_channels)%Z ->
   FishBlock_init in_channels out_channels stride dilation true = Err AssertionError).
Proof.
  unfold FishBlock_init. rewrite FishBottleneck_init_ok. simpl bind.
  rewrite ChannelSqueeze_init_2.
  pose proof (Z.div_mod in_channels 2 ltac:(lia)) as Hdm.
  pose proof (Z.mod_pos_bound in_channels 2 ltac:(lia)) as Hmb.
  destruct (in_channels / 2 =? out_channels)%Z eqn:Ediv;
    [apply Z.eqb_eq in Ediv | apply Z.eqb_neq in Ediv];
    (destruct (in_channels mod 2 =? 0)%Z eqn:Emod;
      [apply Z.eqb_eq in Emod | apply Z.eqb_neq in Emod]); simpl bind.
  - split; [| split].
    + split; [intros _; eexists; reflexivity | intros _; lia].
    + intros _ Hodd. contradiction.
    + intros Hne. contradiction.
  - split; [| split].
    + split; [intros Heq; lia | intros [blk Hblk]; discriminate Hblk].
    + intros _ _. reflexivity.
    + intros Hne. contradiction.
  - split; [| split].
    + split; [intros Heq; lia | intros [blk Hblk]; discriminate Hblk].
    + intros Heq. contradiction.
    + intros _. reflexivity.
  - split; [| split].
    + split; [intros Heq; lia | intros [blk Hblk]; discriminate Hblk].
    + intros Heq. contradiction.
    + intros _. reflexivity.
Qed.

Lemma FishBlock_init_squeeze_witness :
  ((16 = 2 * 8)%Z /\ exists blk, FishBlock_init 16 8 1 1 true = Ok blk) /\
  ((17 / 2 = 8)%Z /\ (17 mod 2 <> 0)%Z /\
   FishBlock_init 17 8 1 1 true = Err (ValueError "channels must be divisible by groups")) /\
  ((16 / 2 <> 7)%Z /\ FishBlock_init 16 7 1 1 true = Err AssertionError).
Proof.
  split; [| split].
  - split; [reflexivity |].
    apply (proj1 (FishBlock_init_squeeze 16 8 1 1)). reflexivity.
  - split; [reflexivity |]. split; [vm_compute; discriminate |].
    apply (proj1 (proj2 (FishBlock_init_squeeze 17 8 1 1)));
      [reflexivity | vm_compute; discriminate].
  - split; [vm_compute; discriminate |].
    apply (proj2 (proj2 (FishBlock_init_squeeze 16 7 1 1))).
    vm_compute; discriminate.
Defined.

(** C10, as stated, fails: [FishBlock(17, 8, squeeze=True)] passes the
    assertion ([17 // 2 = 8]) and is refused by [ChannelSqueeze]. *)
Lemma squeeze_block_floor_half_counterexample : ~ squeeze_block_accepts_floor_half.
Proof.
  intros Hclaim.
  destruct (Hclaim 17 8 1 1)%Z as [blk Hblk].
  - reflexivity.
  - vm_compute in Hblk. discriminate Hblk.
Qed.

(** ** Block and unit evaluation *)

Lemma add_module_In {M : Type} (s : list (string * M)) (name : string) (m : M) :
  In (name, m) (add_module s name m).
Proof.
  induction s as [| [n m'] r IH]; simpl.
  - now left.
  - destruct (String.eqb n name) eqn:E.
    + apply String.eqb_eq in E. subst n. now left.
    + now right.
Qed.

Section ForwardFacts.

Variable T : Type.
Variable add : T -> T -> T.
Variable zero : T.
Variable pre_conv_forward : PreConvBlock -> Tensor T -> result (Tensor T).
Variable max_pool2d : Z -> Z -> Tensor T -> result (Tensor T).
Variable resample : string -> option bool -> Z -> Tensor T -> result (Tensor T).
Variable broadcast_add : Tensor T -> Tensor T -> result (Tensor T).

(** C4. A constructed [FishBlock] has a [FishBottleneck] built from the
    same arguments as its body; its flags and optional attributes realise
    the three-way shortcut policy (squeeze with 2 groups when [squeeze] is
    set, which forces [in_channels = 2 * out_channels]; otherwise a
    pre-activated 1x1 projection with the given stride when
    [in_channels <> out_channels] or [stride <> 1]; otherwise the identity);
    and [forward x] is [body x + shortcut x]. *)
Theorem FishBlock_forward_policy
  (in_channels out_channels stride dilation : Z) (sq : bool) (blk : FishBlock) :
  FishBlock_init in_channels out_channels stride dilation sq = Ok blk ->
  FishBottleneck_init in_channels out_channels stride dilation = Ok (body blk) /\
  (sq = true -> in_channels = 2 * out_channels)%Z /\
  match shortcut_policy in_channels out_channels stride sq with
  | SqueezeShortcut groups =>
      sq = true /\ groups = 2 /\
      squeeze blk = true /\ c_squeeze blk = Some (mkChannelSqueeze groups) /\
      identity_conv blk = None
  | ProjectionShortcut i o s =>
      sq = false /\ (in_channels <> out_channels \/ stride <> 1)%Z /\
      i = in_channels /\ o = out_channels /\ s = stride /\
      squeeze blk = false /\ resize_identity blk = true /\ c_squeeze blk = None /\
      exists ic, pre_conv1x1_block i o (Some s) = Ok ic /\ identity_conv blk = Some ic
  | IdentityShortcut =>
      sq = false /\ in_channels = out_channels /\ stride = 1%Z /\
      squeeze blk = false /\ resize_identity blk = false /\
      c_squeeze blk = None /\ identity_conv blk = None
  end /\
  forall x : Tensor T,
    FishBlock_forward T add zero pre_conv_forward broadcast_add blk x =
    (identity <- Shortcut_forward T add zero pre_conv_forward
                   (shortcut_policy in_channels out_channels stride sq) x ;;
     y <- FishBottleneck_forward T pre_conv_forward (body blk) x ;;
     tensor_add T add broadcast_add y identity).
Proof.
  unfold FishBlock_init, shortcut_policy.
  rewrite FishBottleneck_init_ok. simpl bind.
  destruct sq.
  - rewrite ChannelSqueeze_init_2.
    destruct (in_channels / 2 =? out_channels)%Z eqn:Ediv; [| discriminate].
    destruct (in_channels mod 2 =? 0)%Z eqn:Emod; [| discriminate].
    simpl bind. intros Hblk. injection Hblk as <-.
    apply Z.eqb_eq in Ediv. apply Z.eqb_eq in Emod.
    pose proof (Z.div_mod in_channels 2 ltac:(lia)) as Hdm.
    split; [reflexivity |]. split; [intros _; lia |].
    split; [repeat split |].
    intros x. reflexivity.
  - destruct (negb (in_channels =? out_channels)%Z || negb (stride =? 1)%Z) eqn:Er.
    + simpl bind. intros Hblk. injection Hblk as <-.
      split; [reflexivity |]. split; [discriminate |].
      split.
      * apply orb_true_iff in Er.
        split; [reflexivity |]. split.
        { destruct Er as [Er | Er]; apply negb_true_iff in Er.
          - left. now apply Z.eqb_neq.
          - right. now apply Z.eqb_neq. }
        repeat (split; [reflexivity |]).
        eexists. split; reflexivity.
      * intros x. reflexivity.
    + intros Hblk. injection Hblk as <-.
      split; [reflexivity |]. split; [discriminate |].
      apply orb_false_iff in Er. destruct Er as [Er1 Er2].
      apply negb_false_iff in Er1. apply negb_false_iff in Er2.
      apply Z.eqb_eq in Er1. apply Z.eqb_eq in Er2.
      split; [repeat split; assumption |].
      intros x. reflexivity.
Qed.

(** A sequence that holds an interpolation block in mode "nearest" never
    runs to its end. *)
Lemma Sequential_forward_nearest (s : Sequential) (name : string)
  (ib : InterpolationBlock) :
  mode ib = "nearest" -> In (name, LInterpolation ib) s ->
  forall x, exists e,
    Sequential_forward T add zero pre_conv_forward max_pool2d resample broadcast_add s x
    = Err e.
Proof.
  intros Hmode. induction s as [| [n l] r IH]; intros Hin x.
  - destruct Hin.
  - simpl. destruct Hin as [Heq | Hin].
    + injection Heq as -> ->. simpl.
      unfold InterpolationBlock_forward, F_interpolate. rewrite Hmode. simpl.
      eexists. reflexivity.
    + destruct (Layer_forward T add zero pre_conv_forward max_pool2d resample
                  broadcast_add l x) as [y | e]; simpl.
      * now apply IH.
      * eexists. reflexivity.
Qed.

(** C6, on the code: [forward] of a constructed [UpUnit] raises for every
    input, whatever the external transforms compute: its last module calls
    [F.interpolate] in mode "nearest" together with [align_corners=True]. *)
Theorem UpUnit_forward_raises (in_channels : Z) (out_channels_list : list Z)
  (u : UpUnit) (x : Tensor T) :
  UpUnit_init in_channels out_channels_list = Ok u ->
  exists e,
    UpUnit_forward T add zero pre_conv_forward max_pool2d resample broadcast_add u x
    = Err e.
Proof.
  unfold UpUnit_init. intros Hu.
  apply bind_ok_inv in Hu as (blocks & _ & Hu).
  simpl in Hu. injection Hu as <-.
  unfold UpUnit_forward. cbn [up_blocks].
  eapply Sequential_forward_nearest; [| apply add_module_In].
  reflexivity.
Qed.

End ForwardFacts.

Lemma FishBlock_forward_policy_witness :
  exists blk,
    FishBlock_init 16 8 1 1 true = Ok blk /\
    (16 = 2 * 8)%Z /\
    forall x : Tensor Z,
      FishBlock_forward Z Z.add 0%Z (fun _ x => Ok x) (fun x _ => Ok x) blk x =
      (identity <- channel_squeeze Z.add 0%Z x 2 ;;
       y <- FishBottleneck_forward Z (fun _ x => Ok x) (body blk) x ;;
       tensor_add Z Z.add (fun x _ => Ok x) y identity).
Proof.
  eexists. split; [reflexivity |].
  pose proof (FishBlock_forward_policy Z Z.add 0%Z (fun _ x => Ok x) (fun x _ => Ok x)
                16 8 1 1 true _ eq_refl) as (_ & Hreq & _ & Hfwd).
  split; [exact (Hreq eq_refl) | exact Hfwd].
Defined.

Lemma UpUnit_forward_raises_witness :
  exists u,
    UpUnit_init 4 [4%Z] = Ok u /\
    UpUnit_forward Z Z.add 0%Z (fun _ x => Ok x) (fun _ _ x => Ok x)
      (fun _ _ _ x => Ok x) (fun x _ => Ok x) u (mkTensor [1; 4; 2; 2] (repeat 1%Z 16))
    = Err (ValueError
        "align_corners option can only be set with the interpolating modes: linear | bilinear | bicubic | trilinear").
Proof.
  eexists. split; [reflexivity |].
  destruct (UpUnit_forward_raises Z Z.add 0%Z (fun _ x => Ok x) (fun _ _ x => Ok x)
              (fun _ _ _ x => Ok x) (fun x _ => Ok x) 4 [4%Z]
              _ (mkTensor [1; 4; 2; 2] (repeat 1%Z 16)) eq_refl) as [e He].
  vm_compute in He. injection He as <-. reflexivity.
Defined.

(** ** The assembler and the build entry point *)

Lemma format_int_99 : format_int 99 = "99".
Proof. reflexivity. Qed.

(** [DownUnit] does not take the keywords the assembler calls it with. *)
Lemma DownUnit_call_out_channels_layers (a b c : pyarg) :
  DownUnit_call [("in_channels", a); ("out_channels", b); ("layers", c)]
  = Err (TypeError "__init__() got an unexpected keyword argument 'out_channels'").
Proof. reflexivity. Qed.

Lemma stage_step_raises (direct_channels skip_channels : channel_table) (depth : nat)
  (st : UnitSeq * UnitSeq * Z) (i : nat) :
  exists e, stage_step direct_channels skip_channels depth st i = Err e.
Proof.
  destruct st as [[skip1_seq down1_seq] in_channels]. unfold stage_step.
  destruct (py_getitem skip_channels 0) as [sc0 | e]; simpl; [| eauto].
  destruct (py_getitem sc0 i) as [per_stage | e]; simpl; [| eauto].
  destruct (py_getitem per_stage 0) as [oc | e]; simpl; [| eauto].
  destruct (py_len per_stage) as [ly | e]; simpl; [| eauto].
  eauto.
Qed.

(** X11. No call of [FishNet.__init__] returns. *)
Lemma FishNet_init_raises (direct_channels skip_channels : channel_table)
  (init_block_channels in_channels : Z) (in_size : Z * Z) (num_classes : Z) :
  exists e,
    FishNet_init direct_channels skip_channels init_block_channels in_channels
      in_size num_classes = Err e.
Proof.
  unfold FishNet_init.
  destruct (py_getitem direct_channels 0) as [dc0 | e]; simpl; [| eauto].
  destruct (py_len dc0) as [depth | e]; simpl; [| eauto].
  rewrite Nat.add_1_r. cbn [seq stage_loop].
  destruct (stage_step_raises direct_channels skip_channels depth
              ([], [], init_block_channels) 0) as [e He].
  rewrite He. simpl. eauto.
Qed.

(** C1, on the code. Handed the channel tables of the 150-block variant as
    lists of lists of lists, with the default arguments, [FishNet.__init__]
    adds no unit to either pathway: in its first stage it calls [DownUnit],
    not [SkipUnit], for the skip pathway, with the keywords [out_channels]
    and [layers] that [DownUnit] does not have, and raises [TypeError]. *)
Theorem FishNet_init_lists_raises :
  ('(direct_layers, skip_layers, direct_channels_per_layers, skip_channels_per_layers)
     <- variant_table 150 ;;
   FishNet_init
     (as_lists (expand_channels direct_channels_per_layers direct_layers))
     (as_lists (expand_channels skip_channels_per_layers skip_layers))
     64 3 (224, 224)%Z 1000)
  = Err (TypeError "__init__() got an unexpected keyword argument 'out_channels'").
Proof. vm_compute. reflexivity. Qed.

(** C2, on the code. [get_fishnet(blocks=150)] and [fishnet150] raise
    [TypeError] while the network is assembled, whatever the other
    arguments: [len(direct_channels[0])] is asked of a generator. *)
Theorem get_fishnet_150_raises
  (download_model : FishNet -> string -> string -> result unit)
  (model_name : option string) (pretrained : bool) (root : string)
  (kwargs : FishNet_kwargs) :
  get_fishnet download_model 150 model_name pretrained root kwargs
  = Err (TypeError "object of type 'generator' has no len()") /\
  fishnet150 download_model pretrained kwargs
  = Err (TypeError "object of type 'generator' has no len()").
Proof. split; reflexivity. Qed.

(** The part of the list-length invariant that holds: every per-stage list
    [[c] * n] has [n] entries, all equal to [c]. *)
Lemma py_repeat_spec (c n : Z) :
  (0 <= n)%Z ->
  Z.of_nat (length (py_items (py_repeat c n))) = n /\
  Forall (eq c) (py_items (py_repeat c n)) /\
  py_len (py_repeat c n) = Ok (Z.to_nat n).
Proof.
  intros Hn. unfold py_repeat. simpl. rewrite repeat_length.
  split; [lia |]. split; [| reflexivity].
  apply Forall_forall. intros a Ha. symmetry. exact (repeat_spec _ _ _ Ha).
Qed.

Lemma expand_channels_stage (channels_per_layers layers : list (list Z))
  (k j : nat) (ci li : list Z) (cij lij : Z) :
  length channels_per_layers = length layers ->
  nth_error channels_per_layers k = Some ci -> nth_error layers k = Some li ->
  length ci = length li ->
  nth_error ci j = Some cij -> nth_error li j = Some lij ->
  exists pathway,
    nth_error (py_items (expand_channels channels_per_layers layers)) k = Some pathway /\
    nth_error (py_items pathway) j = Some (py_repeat cij lij).
Proof.
  intros Hlen Hci Hli Hlen' Hcij Hlij.
  unfold expand_channels. cbn [py_items].
  assert (Hcomb : forall (A B : Type) (l1 : list A) (l2 : list B) n a b,
            nth_error l1 n = Some a -> nth_error l2 n = Some b ->
            nth_error (combine l1 l2) n = Some (a, b)).
  { intros A B l1. induction l1 as [| a1 l1 IH]; intros l2 n a b H1 H2.
    - destruct n; discriminate H1.
    - destruct l2 as [| b1 l2]; [destruct n; discriminate H2 |].
      destruct n as [| n]; simpl in *.
      + now injection H1 as ->; injection H2 as ->.
      + now apply IH. }
  eexists. split.
  - rewrite nth_error_map, (Hcomb _ _ _ _ _ _ _ Hci Hli). reflexivity.
  - cbn [py_items fst snd].
    rewrite nth_error_map, (Hcomb _ _ _ _ _ _ _ Hcij Hlij). reflexivity.
Qed.

(** C5, on the code. For the 150-block variant the two length queries of
    the assembler fail on the tables the generator hands it: the pathways
    are generator expressions, so [len(direct_channels[0])] and
    [skip_channels[0][0]] raise [TypeError]; the per-stage lists a pathway
    would yield do have the configured lengths. *)
Theorem expand_channels_150_queries :
  ('(direct_layers, _, direct_channels_per_layers, _) <- variant_table 150 ;;
   dc0 <- py_getitem (expand_channels direct_channels_per_layers direct_layers) 0 ;;
   py_len dc0)
  = Err (TypeError "object of type 'generator' has no len()") /\
  ('(_, skip_layers, _, skip_channels_per_layers) <- variant_table 150 ;;
   sc0 <- py_getitem (expand_channels skip_channels_per_layers skip_layers) 0 ;;
   stage <- py_getitem sc0 0 ;;
   py_len stage)
  = Err (TypeError "'generator' object is not subscriptable") /\
  ('(direct_layers, skip_layers, direct_channels_per_layers, skip_channels_per_layers)
     <- variant_table 150 ;;
   Ok (map (fun p => map (fun s => length (py_items s)) (py_items p))
         (py_items (expand_channels direct_channels_per_layers direct_layers)),
       map (fun p => map (fun s => length (py_items s)) (py_items p))
         (py_items (expand_channels skip_channels_per_layers skip_layers))))
  = Ok ([[2; 4; 8]; [2; 2; 2]; [2; 2; 4]], [[2; 2; 2; 2]; [2; 2; 2; 2]]).
Proof. repeat split. Qed.

Section BuildFacts.

Variable download_model : FishNet -> string -> string -> result unit.

(** C9, on the code. Every variant code other than 150, the reserved code 99
    of [fishnet99] among them, makes [get_fishnet] raise the descriptive
    [ValueError] naming the code, before any part of the model is built.
    The unsupported codes are not the only ones that end in an error: the
    supported code 150, with the default arguments, raises the [TypeError]
    of the assembler.  The guard on [model_name] further down is never the
    error of the entry point: the call of [FishNet] raises before it. *)
Theorem get_fishnet_unsupported :
  (forall blocks model_name pretrained root kwargs,
     blocks <> 150%Z ->
     get_fishnet download_model blocks model_name pretrained root kwargs
     = Err (ValueError (String.append "Unsupported FishNet with number of blocks: "
                          (format_int blocks)))) /\
  (forall pretrained kwargs,
     fishnet99 download_model pretrained kwargs
     = Err (ValueError "Unsupported FishNet with number of blocks: 99")) /\
  (forall model_name pretrained root,
     supported 150 /\
     get_fishnet download_model 150 model_name pretrained root no_kwargs
     = Err (TypeError "object of type 'generator' has no len()")) /\
  (forall blocks model_name pretrained root kwargs,
     get_fishnet download_model blocks model_name pretrained root kwargs
     <> Err model_name_missing).
Proof.
  split; [| split; [| split]].
  - intros blocks model_name pretrained root kwargs Hne.
    unfold get_fishnet, variant_table.
    destruct (blocks =? 99)%Z; [reflexivity |].
    destruct (blocks =? 150)%Z eqn:E; [| reflexivity].
    apply Z.eqb_eq in E. contradiction.
  - intros pretrained kwargs. reflexivity.
  - intros model_name pretrained root. split; reflexivity.
  - intros blocks model_name pretrained root kwargs.
    unfold get_fishnet, variant_table, unsupported, model_name_missing.
    destruct (blocks =? 99)%Z; [simpl; intros H; discriminate H |].
    destruct (blocks =? 150)%Z; simpl; intros H; discriminate H.
Qed.

End BuildFacts.

Lemma get_fishnet_unsupported_witness :
  get_fishnet (fun _ _ _ => Ok tt) 34 None false default_root no_kwargs
  = Err (ValueError "Unsupported FishNet with number of blocks: 34").
Proof.
  apply (proj1 (get_fishnet_unsupported (fun _ _ _ => Ok tt))).
  discriminate.
Defined.

(** The entry point does raise outside the unsupported codes: the supported
    code 150, asked for with pretrained weights and no model name, ends in
    the error of the assembler. *)
Lemma unsupported_is_only_error_counterexample :
  ~ unsupported_is_only_error (fun _ _ _ => Ok tt).
Proof.
  intros (_ & _ & Honly).
  destruct (Honly 150%Z None true default_root no_kwargs
              (TypeError "object of type 'generator' has no len()") eq_refl)
    as [Hunsupported _].
  apply Hunsupported. reflexivity.
Qed.

(** * Further properties of the code *)

(** ** Channel squeeze: errors, shape, edge cases *)

Section ChannelSqueezeMore.

Variable T : Type.
Variable add : T -> T -> T.
Variable zero : T.

(** The element counts before and after regrouping the channels. *)
Lemma regroup_count (B C G H W : nat) :
  0 < G ->
  (prod [B; C / G; G; H; W] = prod [B; C; H; W] <-> C mod G = 0 \/ B * H * W = 0).
Proof.
  intros HG. unfold prod. simpl.
  pose proof (Nat.div_mod_eq C G) as Hdm.
  set (q := C / G) in *. set (r := C mod G) in *.
  replace (B * (q * (G * (H * (W * 1))))) with (B * H * W * (G * q)) by ring.
  replace (B * (C * (H * (W * 1)))) with (B * H * W * (G * q) + B * H * W * r)
    by (rewrite Hdm; ring).
  split.
  - intros Heq. assert (Hz : B * H * W * r = 0) by lia.
    apply Nat.eq_mul_0 in Hz. tauto.
  - intros [Hr | Hp]; [rewrite Hr | rewrite Hp]; lia.
Qed.

(** What [channel_squeeze] returns when the view is accepted. *)
Lemma channel_squeeze_shape_aux (x : Tensor T) (B C G H W : nat) :
  dims x = [B; C; H; W] -> 0 < G ->
  prod [B; C / G; G; H; W] = length (data x) ->
  exists y,
    channel_squeeze add zero x G = Ok y /\
    dims y = [B; C / G; H; W] /\ wf_tensor y.
Proof.
  intros Hdims HG Hcount.
  unfold channel_squeeze, size4. rewrite Hdims. simpl bind.
  unfold floordiv.
  replace (G =? 0) with false by (symmetry; apply Nat.eqb_neq; lia).
  simpl bind. unfold view, numel.
  replace (prod [B; C / G; G; H; W] =? length (data x)) with true
    by (symmetry; now apply Nat.eqb_eq).
  simpl bind. unfold tensor_sum. simpl dims. simpl data.
  cbn [length Nat.ltb Nat.leb firstn skipn nth app].
  eexists. split; [reflexivity |]. split; [reflexivity |].
  unfold wf_tensor. simpl dims. simpl data.
  rewrite (length_flat_map_block _ (prod [H; W])).
  - unfold prod. simpl. ring.
  - intros o. now rewrite length_map, length_seq.
Qed.

(** X1. The errors of [channel_squeeze]: a tensor that is not 4D fails at the
    unpacking of its size, before [groups] is looked at; on a 4D tensor
    [groups = 0] is a division by zero; a channel count that [groups] does
    not divide is refused by [view] as soon as the tensor has elements. *)
Theorem channel_squeeze_errors (x : Tensor T) (groups : nat) :
  (length (dims x) <> 4 ->
   channel_squeeze add zero x groups
   = Err (ValueError "wrong number of values to unpack (expected 4)")) /\
  (length (dims x) = 4 -> groups = 0 ->
   channel_squeeze add zero x groups = Err ZeroDivisionError) /\
  (forall B C H W,
     wf_tensor x -> dims x = [B; C; H; W] -> 0 < groups ->
     C mod groups <> 0 -> 0 < B * H * W ->
     channel_squeeze add zero x groups
     = Err (RuntimeError "shape is invalid for input of this size")).
Proof.
  split; [| split].
  - intros Hrank. unfold channel_squeeze, size4.
    destruct (dims x) as [| b [| c [| h [| w [| ? ?]]]]]; simpl in *;
      try reflexivity; lia.
  - intros Hrank ->. unfold channel_squeeze, size4.
    destruct (dims x) as [| b [| c [| h [| w [| ? ?]]]]]; simpl in *;
      try discriminate Hrank. reflexivity.
  - intros B C H W Hwf Hdims HG Hmod Hpos.
    unfold channel_squeeze, size4. rewrite Hdims. simpl bind.
    unfold floordiv.
    replace (groups =? 0) with false by (symmetry; apply Nat.eqb_neq; lia).
    simpl bind. unfold view, numel.
    replace (prod [B; C / groups; groups; H; W] =? length (data x)) with false;
      [reflexivity |].
    symmetry. apply Nat.eqb_neq. intros Heq.
    unfold wf_tensor in Hwf. rewrite Hdims in Hwf. rewrite Hwf in Heq.
    apply regroup_count in Heq; [| exact HG]. lia.
Qed.

(** X2. On a well-formed 4D tensor and [groups > 0], [channel_squeeze] returns
    exactly when [groups] divides the channel count or the tensor has no
    element in the other three extents; what it returns then is well formed
    with [C / groups] channels (the floor, in the second case). *)
Theorem channel_squeeze_succeeds_iff (x : Tensor T) (B C H W groups : nat) :
  wf_tensor x -> dims x = [B; C; H; W] -> 0 < groups ->
  ((exists y, channel_squeeze add zero x groups = Ok y) <->
   (C mod groups = 0 \/ B * H * W = 0)) /\
  (forall y, channel_squeeze add zero x groups = Ok y ->
     dims y = [B; C / groups; H; W] /\ wf_tensor y).
Proof.
  intros Hwf Hdims HG.
  unfold wf_tensor in Hwf. rewrite Hdims in Hwf.
  destruct (Nat.eq_dec (prod [B; C / groups; groups; H; W]) (length (data x)))
    as [Heq | Hne].
  - destruct (channel_squeeze_shape_aux x B C groups H W Hdims HG Heq)
      as (y & Hy & Hd & Hw).
    split.
    + split; [intros _ | intros _; now exists y].
      rewrite Hwf in Heq. now apply regroup_count in Heq.
    + intros y' Hy'. rewrite Hy in Hy'. injection Hy' as <-. now split.
  - assert (Herr : channel_squeeze add zero x groups
                   = Err (RuntimeError "shape is invalid for input of this size")).
    { unfold channel_squeeze, size4. rewrite Hdims. simpl bind.
      unfold floordiv.
      replace (groups =? 0) with false by (symmetry; apply Nat.eqb_neq; lia).
      simpl bind. unfold view, numel.
      replace (prod [B; C / groups; groups; H; W] =? length (data x)) with false
        by (symmetry; now apply Nat.eqb_neq).
      reflexivity. }
    split.
    + split.
      * intros [y Hy]. rewrite Herr in Hy. discriminate Hy.
      * intros Hcase. exfalso. apply Hne. rewrite Hwf.
        now apply regroup_count.
    + intros y Hy. rewrite Herr in Hy. discriminate Hy.
Qed.

End ChannelSqueezeMore.

(** ** Channel squeeze: the trivial group and squeezing twice *)

Lemma flat_blocks_id {X : Type} (l : list X) (d : X) (outer inner : nat) :
  length l = outer * inner ->
  flat_map (fun o => map (fun i => nth (o * inner + i) l d) (seq 0 inner)) (seq 0 outer)
  = l.
Proof.
  intros Hlen.
  set (F := fun o => map (fun i => nth (o * inner + i) l d) (seq 0 inner)).
  assert (HF : forall o, length (F o) = inner).
  { intros o. unfold F. now rewrite length_map, length_seq. }
  apply (nth_ext _ _ d d).
  - now rewrite (length_flat_map_block F inner HF), Hlen.
  - rewrite (length_flat_map_block F inner HF). intros j Hj.
    assert (Hinner : 0 < inner) by nia.
    pose proof (Nat.div_mod_eq j inner) as Hdm.
    pose proof (Nat.mod_upper_bound j inner ltac:(lia)) as Hmod.
    assert (Hdiv : j / inner < outer)
      by (apply Nat.Div0.div_lt_upper_bound; nia).
    replace j with (j / inner * inner + j mod inner) at 1 by lia.
    rewrite (nth_flat_map_block F inner d HF outer 0 _ _ Hdiv Hmod).
    simpl (0 + _). unfold F. rewrite nth_map_seq by exact Hmod.
    f_equal. lia.
Qed.

Section TensorExtensionality.

Variable T : Type.
Variable zero : T.

(** Two well-formed 4D tensors of one shape with the same element at every
    index are the same tensor. *)
Lemma tensor_ext4 (y z : Tensor T) (B C H W : nat) :
  wf_tensor y -> wf_tensor z ->
  dims y = [B; C; H; W] -> dims z = [B; C; H; W] ->
  (forall b c h w, b < B -> c < C -> h < H -> w < W ->
     get4 zero y b c h w = get4 zero z b c h w) ->
  y = z.
Proof.
  intros Hwy Hwz Hdy Hdz Hget.
  destruct y as [dy ly], z as [dz lz]. simpl in *. subst dy dz.
  unfold wf_tensor in *. simpl in *. f_equal.
  apply (nth_ext _ _ zero zero); [congruence |].
  intros j Hj. rewrite Hwy in Hj.
  replace (B * (C * (H * (W * 1)))) with (B * C * H * W) in Hj by ring.
  assert (HW : 0 < W) by nia. assert (HH : 0 < H) by nia. assert (HC : 0 < C) by nia.
  pose proof (Nat.div_mod_eq j W) as E1.
  pose proof (Nat.mod_upper_bound j W ltac:(lia)) as B1.
  pose proof (Nat.div_mod_eq (j / W) H) as E2.
  pose proof (Nat.mod_upper_bound (j / W) H ltac:(lia)) as B2.
  pose proof (Nat.div_mod_eq (j / W / H) C) as E3.
  pose proof (Nat.mod_upper_bound (j / W / H) C ltac:(lia)) as B3.
  assert (Hb : j / W / H / C < B).
  { repeat apply Nat.Div0.div_lt_upper_bound. nia. }
  specialize (Hget (j / W / H / C) ((j / W / H) mod C) ((j / W) mod H) (j mod W)
                Hb B3 B2 B1).
  unfold get4 in Hget. simpl in Hget.
  replace ((((j / W / H / C) * C + (j / W / H) mod C) * H + (j / W) mod H) * W + j mod W)
    with j in Hget; [exact Hget |].
  rewrite (Nat.mul_comm (j / W / H / C) C), <- E3.
  rewrite (Nat.mul_comm (j / W / H) H), <- E2.
  rewrite (Nat.mul_comm (j / W) W), <- E1. reflexivity.
Qed.

End TensorExtensionality.

Section SqueezeTwice.

Variable T : Type.
Variable add : T -> T -> T.
Variable zero : T.

(** X3. With a single group nothing is summed: [channel_squeeze x 1] is [x]. *)
Theorem channel_squeeze_one_group (x : Tensor T) :
  wf_tensor x -> length (dims x) = 4 ->
  channel_squeeze add zero x 1 = Ok x.
Proof.
  intros Hwf Hrank.
  destruct (dims x) as [| B [| C [| H [| W [| ? ?]]]]] eqn:Hdims;
    try discriminate Hrank.
  assert (Hdims' : dims x = [B; C * 1; H; W]) by (now rewrite Nat.mul_1_r).
  destruct (channel_squeeze_eval T add zero x B C 1 H W Hwf Hdims' ltac:(lia))
    as (y & Hy & Hdy & Hwy & Hget).
  rewrite Hy. f_equal.
  apply (tensor_ext4 T zero y x B C H W Hwy Hwf Hdy Hdims).
  intros b c h w Hb Hc Hh Hw.
  rewrite (Hget b c h w Hb Hc Hh Hw). simpl.
  now rewrite Nat.mul_1_r, Nat.add_0_r.
Qed.

Hypothesis add_assoc : forall a b c, add a (add b c) = add (add a b) c.

Lemma fold_left_add_shift (r : list T) (s b : T) :
  fold_left add r (add s b) = add s (fold_left add r b).
Proof.
  revert b. induction r as [| c r IH]; intros b; simpl.
  - reflexivity.
  - now rewrite <- add_assoc, IH.
Qed.

Lemma sum_list_app (l1 l2 : list T) :
  l1 <> [] -> l2 <> [] ->
  sum_list add zero (l1 ++ l2) = add (sum_list add zero l1) (sum_list add zero l2).
Proof.
  destruct l1 as [| a r1]; [congruence |].
  destruct l2 as [| b r2]; [congruence |]. intros _ _.
  simpl. rewrite fold_left_app. simpl. apply fold_left_add_shift.
Qed.

Lemma map_seq_nonempty {X : Type} (f : nat -> X) (s n : nat) :
  0 < n -> map f (seq s n) <> [].
Proof. destruct n; [lia | discriminate]. Qed.

(** A sum over [g2 * g1] consecutive terms, taken [g1] at a time. *)
Lemma sum_regroup (f : nat -> T) (g1 k : nat) :
  0 < g1 ->
  sum_list add zero (map f (seq 0 (S k * g1))) =
  sum_list add zero
    (map (fun c => sum_list add zero (map (fun a => f (c * g1 + a)) (seq 0 g1)))
         (seq 0 (S k))).
Proof.
  intros Hg1. induction k as [| k IH].
  - simpl (seq 0 1). cbn [map]. rewrite Nat.mul_1_l. reflexivity.
  - replace (S (S k) * g1) with (S k * g1 + g1) by (simpl; lia).
    rewrite seq_app, map_app, sum_list_app;
      try (apply map_seq_nonempty; simpl; lia).
    rewrite (seq_S (S k) 0), map_app, sum_list_app;
      try (apply map_seq_nonempty; lia); try discriminate.
    rewrite IH. f_equal.
    rewrite !Nat.add_0_l. cbn [map sum_list fold_left].
    rewrite (seq_offset (S k * g1) g1), map_map. reflexivity.
Qed.

(** X4. Squeezing by [g1] and then by [g2] is squeezing by [g2 * g1], when the
    element addition is associative. *)
Theorem channel_squeeze_twice (x : Tensor T) (B n g1 g2 H W : nat) :
  wf_tensor x -> dims x = [B; n * (g2 * g1); H; W] -> 0 < g1 -> 0 < g2 ->
  exists y z,
    channel_squeeze add zero x g1 = Ok y /\
    dims y = [B; n * g2; H; W] /\
    channel_squeeze add zero y g2 = Ok z /\
    channel_squeeze add zero x (g2 * g1) = Ok z /\
    dims z = [B; n; H; W].
Proof.
  intros Hwf Hdims Hg1 Hg2.
  assert (Hdims1 : dims x = [B; n * g2 * g1; H; W])
    by (now rewrite <- Nat.mul_assoc).
  destruct (channel_squeeze_eval T add zero x B (n * g2) g1 H W Hwf Hdims1 Hg1)
    as (y & Hy & Hdy & Hwy & Hgy).
  destruct (channel_squeeze_eval T add zero y B n g2 H W Hwy Hdy Hg2)
    as (z & Hz & Hdz & Hwz & Hgz).
  destruct (channel_squeeze_eval T add zero x B n (g2 * g1) H W Hwf Hdims ltac:(nia))
    as (w & Hw & Hdw & Hww & Hgw).
  exists y, z. split; [exact Hy |]. split; [exact Hdy |]. split; [exact Hz |].
  split; [| exact Hdz].
  rewrite Hw. f_equal.
  apply (tensor_ext4 T zero w z B n H W Hww Hwz Hdw Hdz).
  intros b m h v Hb Hm Hh Hv.
  rewrite (Hgw b m h v Hb Hm Hh Hv), (Hgz b m h v Hb Hm Hh Hv).
  destruct g2 as [| k]; [lia |].
  rewrite (sum_regroup (fun t => get4 zero x b (m * (S k * g1) + t) h v) g1 k Hg1).
  f_equal. apply map_ext_in. intros c Hc. apply in_seq in Hc.
  rewrite (Hgy b (m * S k + c) h v Hb ltac:(nia) Hh Hv).
  f_equal. apply map_ext. intros a. f_equal. ring.
Qed.

End SqueezeTwice.

(** ** The squeeze layer and the squeeze shortcut *)

Section SqueezeLayer.

Variable T : Type.
Variable add : T -> T -> T.
Variable zero : T.


(** X6. In a block built with [squeeze = True] the shortcut turns a well-formed
    input with [in_channels] channels into [out_channels] channels over the
    same batch and spatial extents, the width the body is built to produce. *)
Theorem FishBlock_squeeze_shortcut_shape
  (in_channels out_channels stride dilation : Z) (blk : FishBlock)
  (x : Tensor T) (B H W : nat) :
  FishBlock_init in_channels out_channels stride dilation true = Ok blk ->
  wf_tensor x -> dims x = [B; Z.to_nat in_channels; H; W] ->
  exists cs y,
    c_squeeze blk = Some cs /\
    ChannelSqueeze_forward T add zero cs x = Ok y /\
    dims y = [B; Z.to_nat out_channels; H; W] /\
    wf_tensor y /\
    pc_out_channels (conv3 (body blk)) = out_channels.
Proof.
  unfold FishBlock_init. rewrite FishBottleneck_init_ok. simpl bind.
  rewrite ChannelSqueeze_init_2.
  destruct (in_channels / 2 =? out_channels)%Z eqn:Ediv; [| discriminate].
  destruct (in_channels mod 2 =? 0)%Z eqn:Emod; [| discriminate].
  simpl bind. intros Hblk Hwf Hdims. injection Hblk as <-.
  apply Z.eqb_eq in Ediv. apply Z.eqb_eq in Emod.
  pose proof (Z.div_mod in_channels 2 ltac:(lia)) as Hdm.
  assert (HC : Z.to_nat in_channels = Z.to_nat out_channels * 2) by lia.
  rewrite HC in Hdims.
  destruct (channel_squeeze_eval T add zero x B _ 2 H W Hwf Hdims ltac:(lia))
    as (y & Hy & Hdy & Hwy & _).
  exists (mkChannelSqueeze 2), y. cbn [c_squeeze body conv3 pc_out_channels].
  unfold ChannelSqueeze_forward. cbn [cs_groups]. now repeat split.
Qed.

End SqueezeLayer.

(** ** Names of the modules of a unit *)

Lemma to_int_not_nil (z : Z) : Z.to_int z <> Decimal.Pos Decimal.Nil /\
                               Z.to_int z <> Decimal.Neg Decimal.Nil.
Proof.
  destruct z as [| p | p]; simpl; split; try discriminate;
    intros Heq; injection Heq as Heq;
    pose proof (DecimalPos.Unsigned.to_uint_nonnil p) as Hnn; congruence.
Qed.

(** Two integers are printed alike only when they are equal. *)
Lemma format_int_inj (a b : Z) : format_int a = format_int b -> a = b.
Proof.
  unfold format_int. intros Heq.
  apply DecimalZ.to_int_inj.
  destruct (to_int_not_nil a) as [Ha1 Ha2], (to_int_not_nil b) as [Hb1 Hb2].
  pose proof (NilZero.isi (Z.to_int a) Ha1 Ha2) as Ia.
  pose proof (NilZero.isi (Z.to_int b) Hb1 Hb2) as Ib.
  rewrite Heq in Ia. congruence.
Qed.

Lemma block_name_inj (i j : nat) : block_name i = block_name j -> i = j.
Proof.
  unfold block_name. simpl. intros Heq. injection Heq as Heq.
  apply format_int_inj in Heq. lia.
Qed.

Lemma block_name_not_pool (i : nat) : block_name i <> "pool".
Proof. unfold block_name. simpl. discriminate. Qed.

Lemma block_name_not_upsample (i : nat) : block_name i <> "upsample".
Proof. unfold block_name. simpl. discriminate. Qed.

(** Registering a module under a name not yet in use appends it. *)
Lemma add_module_fresh {M : Type} (s : list (string * M)) (name : string) (m : M) :
  ~ In name (map fst s) -> add_module s name m = s ++ [(name, m)].
Proof.
  induction s as [| [n m'] r IH]; simpl; intros Hfresh.
  - reflexivity.
  - destruct (String.eqb n name) eqn:E.
    + apply String.eqb_eq in E. tauto.
    + rewrite IH by tauto. reflexivity.
Qed.

(** ** Construction of the units *)

(** A block that was built without [squeeze] and with stride 1, read back
    from the result of the constructor. *)
Lemma FishBlock_init_default_inv (a b dilation : Z) (blk : FishBlock) :
  FishBlock_init a b 1 dilation false = Ok blk ->
  squeeze blk = false /\ c_squeeze blk = None /\
  FishBottleneck_init a b 1 dilation = Ok (body blk) /\
  resize_identity blk = negb (a =? b)%Z /\
  (a = b -> identity_conv blk = None) /\
  (a <> b -> exists ic, pre_conv1x1_block a b (Some 1%Z) = Ok ic /\
                        identity_conv blk = Some ic).
Proof.
  unfold FishBlock_init. intros Hinit.
  apply bind_ok_inv in Hinit as (bd & Hbody & Hinit).
  change (1 =? 1)%Z with true in Hinit. cbn [negb] in Hinit.
  rewrite orb_false_r in Hinit.
  destruct (a =? b)%Z eqn:E; cbn [negb] in Hinit.
  - apply Z.eqb_eq in E. injection Hinit as <-.
    cbn [squeeze c_squeeze body resize_identity identity_conv].
    split; [reflexivity |]. split; [reflexivity |]. split; [exact Hbody |].
    split; [reflexivity |].
    split; [reflexivity | intros Hne; contradiction].
  - apply Z.eqb_neq in E.
    apply bind_ok_inv in Hinit as (ic & Hic & Hinit). injection Hinit as <-.
    cbn [squeeze c_squeeze body resize_identity identity_conv].
    split; [reflexivity |]. split; [reflexivity |]. split; [exact Hbody |].
    split; [reflexivity |].
    split; [intros Heq; contradiction | intros _; now exists ic].
Qed.

(** The loop of the units, whenever it returns, from any state in which the
    names still to come are free: it has appended one block per entry of
    the list, named in order, each block taking the width the previous one
    produced. *)
Lemma add_blocks_spec (out_channels_list : list Z) :
  forall (blocks res : Sequential) (i : nat) (in_channels : Z),
    (forall j, i <= j -> ~ In (block_name j) (map fst blocks)) ->
    add_blocks blocks i in_channels out_channels_list = Ok res ->
    exists new,
      res = blocks ++ new /\
      map fst new = map block_name (seq i (length out_channels_list)) /\
      Forall2 is_default_block new
        (combine (in_channels :: out_channels_list) out_channels_list).
Proof.
  induction out_channels_list as [| out_channels rest IH];
    intros blocks res i in_channels Hfree Hres.
  - injection Hres as <-. exists []. rewrite app_nil_r. repeat split. constructor.
  - cbn [add_blocks] in Hres.
    apply bind_ok_inv in Hres as (blk & Hblk & Hres).
    change (String.append "block" (format_int (Z.of_nat (i + 1))))
      with (block_name i) in Hres.
    rewrite add_module_fresh in Hres by (apply Hfree; lia).
    destruct (IH (blocks ++ [(block_name i, LFishBlock blk)]) res (S i) out_channels)
      as (new & Hnew & Hnames & Hblocks); [| exact Hres |].
    { intros j Hj. rewrite map_app, in_app_iff. simpl.
      intros [Hin | [Heq | []]].
      - apply (Hfree j); [lia | exact Hin].
      - apply block_name_inj in Heq. lia. }
    exists ((block_name i, LFishBlock blk) :: new).
    rewrite Hnew, <- app_assoc. simpl.
    split; [reflexivity |]. split; [now rewrite Hnames |].
    constructor; [| exact Hblocks].
    exists blk. split; [reflexivity |].
    exact (FishBlock_init_default_inv _ _ _ _ Hblk).
Qed.

Lemma add_blocks_from_empty (in_channels : Z) (out_channels_list : list Z)
  (blocks : Sequential) :
  add_blocks [] 0 in_channels out_channels_list = Ok blocks ->
  length blocks = length out_channels_list /\
  map fst blocks = map block_name (seq 0 (length out_channels_list)) /\
  Forall2 is_default_block blocks
    (combine (in_channels :: out_channels_list) out_channels_list).
Proof.
  intros Hblocks.
  destruct (add_blocks_spec out_channels_list [] blocks 0 in_channels)
    as (new & Hnew & Hnames & Hdefault); [intros j _ [] | exact Hblocks |].
  simpl in Hnew. subst new.
  split; [| split; assumption].
  rewrite <- (length_map fst), Hnames, length_map, length_seq. reflexivity.
Qed.

(** What the three constructors return, whenever they return: the blocks of
    the loop, alone or followed by the module that changes the resolution. *)
Lemma units_layout (in_channels : Z) (out_channels_list : list Z) :
  (forall s, SkipUnit_init in_channels out_channels_list = Ok s ->
     add_blocks [] 0 in_channels out_channels_list = Ok (skip_blocks s)) /\
  (forall d, DownUnit_init in_channels out_channels_list = Ok d ->
     exists blocks,
       add_blocks [] 0 in_channels out_channels_list = Ok blocks /\
       down_blocks d = blocks ++ [("pool", LMaxPool2d 2 2)]) /\
  (forall u, UpUnit_init in_channels out_channels_list = Ok u ->
     exists blocks,
       add_blocks [] 0 in_channels out_channels_list = Ok blocks /\
       up_blocks u =
         blocks ++ [("upsample", LInterpolation (mkInterpolationBlock 2 "nearest"))]).
Proof.
  assert (Hfresh : forall blocks name,
            add_blocks [] 0 in_channels out_channels_list = Ok blocks ->
            (forall i, block_name i <> name) -> ~ In name (map fst blocks)).
  { intros blocks name Hblocks Hname Hin.
    destruct (add_blocks_from_empty _ _ _ Hblocks) as (_ & Hnames & _).
    rewrite Hnames in Hin. apply in_map_iff in Hin as (i & Hi & _).
    exact (Hname i Hi). }
  split; [| split].
  - unfold SkipUnit_init. intros s Hs.
    apply bind_ok_inv in Hs as (blocks & Hblocks & Hs). injection Hs as <-.
    exact Hblocks.
  - unfold DownUnit_init. intros d Hd.
    apply bind_ok_inv in Hd as (blocks & Hblocks & Hd). injection Hd as <-.
    exists blocks. split; [exact Hblocks |]. cbn [down_blocks].
    apply add_module_fresh, (Hfresh blocks _ Hblocks), block_name_not_pool.
  - unfold UpUnit_init. intros u Hu.
    apply bind_ok_inv in Hu as (blocks & Hblocks & Hu).
    apply bind_ok_inv in Hu as (ib & Hib & Hu). injection Hu as <-.
    injection Hib as <-.
    exists blocks. split; [exact Hblocks |]. cbn [up_blocks].
    apply add_module_fresh, (Hfresh blocks _ Hblocks), block_name_not_upsample.
Qed.

(** X7. Whenever a [SkipUnit] is built, for any [in_channels] and any list,
    the empty one included, it holds one block per entry, named [block1],
    [block2], ... in order, none of them overwritten, and block [i] is the
    default block for [(in_i, out_i)], where [in_1 = in_channels] and
    [in_(i+1) = out_i]: no squeeze, the bottleneck of these widths, and
    the 1x1 projection of stride 1 as shortcut when the widths differ. *)
Theorem SkipUnit_init_blocks (in_channels : Z) (out_channels_list : list Z)
  (u : SkipUnit) :
  SkipUnit_init in_channels out_channels_list = Ok u ->
  length (skip_blocks u) = length out_channels_list /\
  map fst (skip_blocks u) = map block_name (seq 0 (length out_channels_list)) /\
  NoDup (map fst (skip_blocks u)) /\
  Forall2 is_default_block (skip_blocks u)
    (combine (in_channels :: out_channels_list) out_channels_list).
Proof.
  intros Hu.
  pose proof (proj1 (units_layout in_channels out_channels_list) u Hu) as Hblocks.
  destruct (add_blocks_from_empty _ _ _ Hblocks) as (Hlen & Hnames & Hdefault).
  split; [exact Hlen |]. split; [exact Hnames |]. split; [| exact Hdefault].
  rewrite Hnames. apply Injective_map_NoDup; [| apply seq_NoDup].
  intros a b. apply block_name_inj.
Qed.

(** X8. Whenever the three units are built from the same arguments, a
    [DownUnit] and an [UpUnit] hold the modules of the [SkipUnit] followed
    by exactly one more: the 2x2 max pooling of stride 2 under the name
    [pool], or the interpolation block of scale 2 in mode "nearest" under
    the name [upsample]; no block is overwritten by it. *)
Theorem DownUnit_UpUnit_init_blocks (in_channels : Z) (out_channels_list : list Z)
  (s : SkipUnit) (d : DownUnit) (u : UpUnit) :
  SkipUnit_init in_channels out_channels_list = Ok s ->
  DownUnit_init in_channels out_channels_list = Ok d ->
  UpUnit_init in_channels out_channels_list = Ok u ->
  down_blocks d = skip_blocks s ++ [("pool", LMaxPool2d 2 2)] /\
  up_blocks u =
    skip_blocks s ++ [("upsample", LInterpolation (mkInterpolationBlock 2 "nearest"))] /\
  length (down_blocks d) = S (length out_channels_list) /\
  length (up_blocks u) = S (length out_channels_list).
Proof.
  intros Hs Hd Hu.
  destruct (units_layout in_channels out_channels_list) as (Ls & Ld & Lu).
  pose proof (Ls s Hs) as Hblocks.
  destruct (Ld d Hd) as (bd & Hbd & Hdown).
  destruct (Lu u Hu) as (bu & Hbu & Hup).
  rewrite Hblocks in Hbd, Hbu. injection Hbd as <-. injection Hbu as <-.
  destruct (add_blocks_from_empty _ _ _ Hblocks) as (Hlen & _ & _).
  split; [exact Hdown |]. split; [exact Hup |].
  rewrite Hdown, Hup, !length_app, Hlen. simpl. lia.
Qed.

Lemma Forall2_nth_error {A B : Type} (R : A -> B -> Prop) (l1 : list A) (l2 : list B) :
  Forall2 R l1 l2 ->
  forall k a, nth_error l1 k = Some a ->
    exists b, nth_error l2 k = Some b /\ R a b.
Proof.
  induction 1 as [| a0 b0 l1 l2 HR _ IH]; intros k a Hk.
  - destruct k; discriminate Hk.
  - destruct k as [| k]; simpl in *.
    + injection Hk as <-. now exists b0.
    + now apply IH.
Qed.

Lemma nth_error_combine_repeat (a c : Z) (n k : nat) (ch : Z * Z) :
  nth_error (combine (a :: repeat c n) (repeat c n)) k = Some ch ->
  ch = if k =? 0 then (a, c) else (c, c).
Proof.
  destruct n as [| n]; [destruct k; discriminate |].
  change (combine (a :: repeat c (S n)) (repeat c (S n)))
    with ((a, c) :: combine (repeat c (S n)) (repeat c n)).
  destruct k as [| k]; cbn [nth_error Nat.eqb]; [now intros [= <-] |].
  intros Hk. apply nth_error_In in Hk. destruct ch as [c1 c2].
  pose proof (in_combine_l _ _ _ _ Hk) as H1.
  pose proof (in_combine_r _ _ _ _ Hk) as H2.
  apply repeat_spec in H1. apply repeat_spec in H2. now subst.
Qed.

(** ** Evaluation of the units *)

Section UnitForward.

Variable T : Type.
Variable add : T -> T -> T.
Variable zero : T.
Variable pre_conv_forward : PreConvBlock -> Tensor T -> result (Tensor T).
Variable max_pool2d : Z -> Z -> Tensor T -> result (Tensor T).
Variable resample : string -> option bool -> Z -> Tensor T -> result (Tensor T).
Variable broadcast_add : Tensor T -> Tensor T -> result (Tensor T).

(** A sequence runs its first part, then its second part on the result. *)
Lemma Sequential_forward_app (s1 s2 : Sequential) (x : Tensor T) :
  Sequential_forward T add zero pre_conv_forward max_pool2d resample broadcast_add
    (s1 ++ s2) x =
  (y <- Sequential_forward T add zero pre_conv_forward max_pool2d resample broadcast_add
          s1 x ;;
   Sequential_forward T add zero pre_conv_forward max_pool2d resample broadcast_add s2 y).
Proof.
  revert x. induction s1 as [| [n l] r IH]; intros x; simpl.
  - reflexivity.
  - destruct (Layer_forward T add zero pre_conv_forward max_pool2d resample
                broadcast_add l x) as [y | e]; simpl; [apply IH | reflexivity].
Qed.

(** X9. A [DownUnit] that was built runs its own blocks in order, one per
    entry of the list, and then, once, the 2x2 max pooling of stride 2 on
    what the last block returned; an error of a block is passed on and the
    pooling is then not run. *)
Theorem DownUnit_forward_blocks_then_pool (in_channels : Z)
  (out_channels_list : list Z) (d : DownUnit) :
  DownUnit_init in_channels out_channels_list = Ok d ->
  exists blocks,
    down_blocks d = blocks ++ [("pool", LMaxPool2d 2 2)] /\
    length blocks = length out_channels_list /\
    Forall (fun layer => exists blk, snd layer = LFishBlock blk) blocks /\
    forall x : Tensor T,
      DownUnit_forward T add zero pre_conv_forward max_pool2d resample broadcast_add d x =
      (y <- Sequential_forward T add zero pre_conv_forward max_pool2d resample
              broadcast_add blocks x ;;
       max_pool2d 2 2 y).
Proof.
  intros Hd.
  destruct (proj1 (proj2 (units_layout in_channels out_channels_list)) d Hd)
    as (blocks & Hblocks & Hdown).
  destruct (add_blocks_from_empty _ _ _ Hblocks) as (Hlen & _ & Hdefault).
  exists blocks. split; [exact Hdown |]. split; [exact Hlen |]. split.
  - clear - Hdefault.
    induction Hdefault as [| layer ch l1 l2 (blk & Hl & _) _ IH]; constructor.
    + now exists blk.
    + exact IH.
  - intros x. unfold DownUnit_forward. rewrite Hdown, Sequential_forward_app.
    destruct (Sequential_forward T add zero pre_conv_forward max_pool2d resample
                broadcast_add blocks x) as [y | e]; simpl; [| reflexivity].
    now destruct (max_pool2d 2 2 y).
Qed.

(** X10. In a unit built from a stage list [[c] * n], as the build entry point
    makes them, only the first block can carry a learned shortcut.  The
    first block has the 1x1 projection from [in_channels] to [c] with
    stride 1 when [in_channels <> c], and then computes [body x +
    projection x]; it has none when [in_channels = c].  Every later block
    has the identity shortcut and computes [body x + x]. *)
Theorem uniform_stage_shortcuts (in_channels c : Z) (n k : nat) (u : SkipUnit)
  (name : string) (blk : FishBlock) :
  SkipUnit_init in_channels (repeat c n) = Ok u ->
  nth_error (skip_blocks u) k = Some (name, LFishBlock blk) ->
  squeeze blk = false /\ c_squeeze blk = None /\
  (k = 0 ->
     resize_identity blk = negb (in_channels =? c)%Z /\
     (in_channels = c -> identity_conv blk = None) /\
     (in_channels <> c ->
        exists ic,
          pre_conv1x1_block in_channels c (Some 1%Z) = Ok ic /\
          identity_conv blk = Some ic /\
          forall x : Tensor T,
            FishBlock_forward T add zero pre_conv_forward broadcast_add blk x =
            (identity <- pre_conv_forward ic x ;;
             y <- FishBottleneck_forward T pre_conv_forward (body blk) x ;;
             tensor_add T add broadcast_add y identity))) /\
  (0 < k ->
     resize_identity blk = false /\ identity_conv blk = None /\
     forall x : Tensor T,
       FishBlock_forward T add zero pre_conv_forward broadcast_add blk x =
       (y <- FishBottleneck_forward T pre_conv_forward (body blk) x ;;
        tensor_add T add broadcast_add y x)).
Proof.
  intros Hu Hk.
  pose proof (proj1 (units_layout in_channels (repeat c n)) u Hu) as Hblocks.
  destruct (add_blocks_from_empty _ _ _ Hblocks) as (_ & _ & Hdefault).
  destruct (Forall2_nth_error _ _ _ Hdefault k _ Hk)
    as (ch & Hch & blk' & Hl & Hsq & Hcs & _ & Hres & Hnone & Hsome).
  simpl in Hl. injection Hl as <-.
  apply nth_error_combine_repeat in Hch. subst ch.
  split; [exact Hsq |]. split; [exact Hcs |].
  destruct k as [| k]; cbn [Nat.eqb fst snd] in *.
  - split; [| intros Hk0; lia]. intros _.
    split; [exact Hres |]. split; [exact Hnone |].
    intros Hne. destruct (Hsome Hne) as (ic & Hic & Hconv).
    exists ic. split; [exact Hic |]. split; [exact Hconv |].
    intros x. unfold FishBlock_forward. rewrite Hsq, Hres, Hconv.
    replace (in_channels =? c)%Z with false
      by (symmetry; now apply Z.eqb_neq).
    reflexivity.
  - split; [intros Hk0; discriminate Hk0 |]. intros _.
    rewrite Z.eqb_refl in Hres. cbn [negb] in Hres.
    split; [exact Hres |]. split; [now apply Hnone |].
    intros x. unfold FishBlock_forward. rewrite Hsq, Hres.
    destruct (FishBottleneck_forward T pre_conv_forward (body blk) x); reflexivity.
Qed.

End UnitForward.

(** ** The assembler, the entry point and the network: further facts *)

(** X12. Which error [FishNet.__init__] ends in once the stem is built, that
    is for a positive [in_channels] and an [init_block_channels] of at
    least 2, the widths the stem is built from before the tables are
    read: an empty [direct_channels] is an index error; a generator as
    [direct_channels[0]] has no length; and once [direct_channels[0]] is a
    list and the first stage of [skip_channels[0]] a non-empty list, the
    first turn of the stage loop reaches the call of [DownUnit] and fails
    on its keywords, whatever the depth and the widths of the tables. *)
Theorem FishNet_init_errors (direct_channels skip_channels : channel_table)
  (init_block_channels in_channels : Z) (in_size : Z * Z) (num_classes : Z) :
  (0 < in_channels)%Z -> (2 <= init_block_channels)%Z ->
  (direct_channels = PyList [] ->
   FishNet_init direct_channels skip_channels init_block_channels in_channels
     in_size num_classes = Err (IndexError "list index out of range")) /\
  (forall g rest, direct_channels = PyList (PyGenerator g :: rest) ->
   FishNet_init direct_channels skip_channels init_block_channels in_channels
     in_size num_classes = Err (TypeError "object of type 'generator' has no len()")) /\
  (forall d0 rest c cs stages pathways,
     direct_channels = PyList (PyList d0 :: rest) ->
     skip_channels = PyList (PyList (PyList (c :: cs) :: stages) :: pathways) ->
     FishNet_init direct_channels skip_channels init_block_channels in_channels
       in_size num_classes
     = Err (TypeError "__init__() got an unexpected keyword argument 'out_channels'")).
Proof.
  intros _ _. split; [| split].
  - intros ->. reflexivity.
  - intros g rest ->. reflexivity.
  - intros d0 rest c cs stages pathways -> ->.
    unfold FishNet_init. cbn [py_getitem nth_error py_len bind].
    rewrite Nat.add_1_r. reflexivity.
Qed.

Section BuildMore.

Variable download_model : FishNet -> string -> string -> result unit.

(** X13. The build entry point returns no network for any argument: every
    call ends in an exception.  The model store is never called: the
    outcome is the same whatever [download_model] is. *)
Theorem get_fishnet_never_builds
  (download_model' : FishNet -> string -> string -> result unit)
  (blocks : Z) (model_name : option string)
  (pretrained : bool) (root : string) (kwargs : FishNet_kwargs) :
  (exists e,
     get_fishnet download_model blocks model_name pretrained root kwargs = Err e) /\
  get_fishnet download_model blocks model_name pretrained root kwargs
  = get_fishnet download_model' blocks model_name pretrained root kwargs.
Proof.
  unfold get_fishnet.
  destruct (variant_table blocks) as [[[[dl sl] dc] sc] | e]; cbn [bind].
  - destruct (FishNet_init (expand_channels dc dl) (expand_channels sc sl) 64
                (or_default (kw_in_channels kwargs) 3%Z)
                (or_default (kw_in_size kwargs) (224, 224)%Z)
                (or_default (kw_num_classes kwargs) 1000%Z)) as [net | e] eqn:Hnet.
    + destruct (stage_step_raises (expand_channels dc dl) (expand_channels sc sl)
                  0 ([], [], 64%Z) 0) as [e0 _].
      exfalso. revert Hnet. clear.
      unfold FishNet_init.
      destruct (py_getitem (expand_channels dc dl) 0) as [dc0 | e]; simpl;
        [| discriminate].
      destruct (py_len dc0) as [depth | e]; simpl; [| discriminate].
      rewrite Nat.add_1_r. cbn [seq stage_loop].
      destruct (stage_step_raises (expand_channels dc dl) (expand_channels sc sl)
                  depth ([], [], 64%Z) 0) as [e He].
      rewrite He. simpl. discriminate.
    + cbn [bind]. split; [now exists e | reflexivity].
  - split; [now exists e | reflexivity].
Qed.

End BuildMore.

Lemma nth_error_combine {A B : Type} (l1 : list A) (l2 : list B) (n : nat) (a : A) (b : B) :
  nth_error l1 n = Some a -> nth_error l2 n = Some b ->
  nth_error (combine l1 l2) n = Some (a, b).
Proof.
  revert l2 n. induction l1 as [| a1 l1 IH]; intros l2 n H1 H2.
  - destruct n; discriminate H1.
  - destruct l2 as [| b1 l2]; [destruct n; discriminate H2 |].
    destruct n as [| n]; simpl in *.
    + now injection H1 as ->; injection H2 as ->.
    + now apply IH.
Qed.

(** X14. The channel tables the entry point derives, for any pair of tables: the
    pathways and the stages of a pathway are paired off up to the shorter
    of the two lists ([zip]); stage [j] of pathway [k] is the list of
    [lij] copies of [cij], which is empty when [lij <= 0]. *)
Theorem expand_channels_shape (channels_per_layers layers : list (list Z)) :
  length (py_items (expand_channels channels_per_layers layers))
  = Nat.min (length channels_per_layers) (length layers) /\
  forall k ci li,
    nth_error channels_per_layers k = Some ci -> nth_error layers k = Some li ->
    exists pathway,
      nth_error (py_items (expand_channels channels_per_layers layers)) k = Some pathway /\
      length (py_items pathway) = Nat.min (length ci) (length li) /\
      forall j cij lij,
        nth_error ci j = Some cij -> nth_error li j = Some lij ->
        exists stage,
          nth_error (py_items pathway) j = Some stage /\
          py_items stage = repeat cij (Z.to_nat lij) /\
          py_len stage = Ok (Z.to_nat lij) /\
          ((lij <= 0)%Z -> py_items stage = []).
Proof.
  unfold expand_channels. cbn [py_items]. split.
  - now rewrite length_map, length_combine.
  - intros k ci li Hci Hli.
    eexists. split.
    + rewrite nth_error_map, (nth_error_combine _ _ _ _ _ Hci Hli). reflexivity.
    + cbn [py_items fst snd]. split.
      * now rewrite length_map, length_combine.
      * intros j cij lij Hcij Hlij.
        eexists. split.
        -- rewrite nth_error_map, (nth_error_combine _ _ _ _ _ Hcij Hlij). reflexivity.
        -- unfold py_repeat. cbn [py_items py_len fst snd].
           rewrite repeat_length. repeat split.
           intros Hneg. now replace (Z.to_nat lij) with 0 by lia.
Qed.

Section NetForwardFacts.

Variable T : Type.
Variable feature_forward : FeatureModule -> Tensor T -> result (Tensor T).
Variable output_forward : OutputModule -> Tensor T -> result (Tensor T).

(** X15. What [FishNet.forward] returns once its two module sequences have
    produced a well-formed tensor [y] of extents [b :: rest]: for [b > 0]
    the same elements as a 2D tensor of [b] rows and as many columns as
    one row of [y] has elements ([(b, K)] for [y] of shape [(b, K, 1, 1)]);
    for an empty batch the reshape raises. *)
Theorem FishNet_forward_flattens (net : FishNet) (x f y : Tensor T)
  (b : nat) (rest : list nat) :
  modules_forward T feature_forward (features net) x = Ok f ->
  modules_forward T output_forward (output net) f = Ok y ->
  wf_tensor y -> dims y = b :: rest ->
  (0 < b ->
   FishNet_forward T feature_forward output_forward net x
   = Ok (mkTensor [b; prod rest] (data y)) /\
   wf_tensor (mkTensor [b; prod rest] (data y)) /\
   (forall K, rest = [K; 1; 1] -> prod rest = K)) /\
  (b = 0 -> exists msg,
   FishNet_forward T feature_forward output_forward net x = Err (RuntimeError msg)).
Proof.
  intros Hf Hy Hwf Hdims.
  unfold FishNet_forward. rewrite Hf. cbn [bind]. rewrite Hy. cbn [bind].
  unfold size0. rewrite Hdims. cbn [bind].
  unfold wf_tensor in Hwf. rewrite Hdims in Hwf.
  change (prod (b :: rest)) with (b * prod rest) in Hwf.
  unfold view_rows, numel. rewrite Hwf. split.
  - intros Hb.
    replace (b =? 0) with false by (symmetry; apply Nat.eqb_neq; lia).
    rewrite (Nat.mul_comm b), Nat.Div0.mod_mul, Nat.div_mul by lia.
    split; [reflexivity |]. split.
    + unfold wf_tensor. simpl. rewrite Hwf. lia.
    + intros K ->. unfold prod. simpl. lia.
  - intros ->. simpl. eexists. reflexivity.
Qed.

End NetForwardFacts.

(** ** The further properties at concrete inputs *)

Lemma channel_squeeze_errors_witness :
  channel_squeeze Z.add 0%Z (mkTensor [2; 3] [1; 2; 3; 4; 5; 6]%Z) 0
  = Err (ValueError "wrong number of values to unpack (expected 4)") /\
  channel_squeeze Z.add 0%Z (mkTensor [1; 2; 1; 1] [1; 2]%Z) 0 = Err ZeroDivisionError /\
  channel_squeeze Z.add 0%Z (mkTensor [1; 3; 1; 1] [1; 2; 3]%Z) 2
  = Err (RuntimeError "shape is invalid for input of this size").
Proof.
  split; [| split].
  - apply (proj1 (channel_squeeze_errors Z Z.add 0%Z
                    (mkTensor [2; 3] [1; 2; 3; 4; 5; 6]%Z) 0)).
    simpl. lia.
  - apply (proj1 (proj2 (channel_squeeze_errors Z Z.add 0%Z
                           (mkTensor [1; 2; 1; 1] [1; 2]%Z) 0))); reflexivity.
  - apply (proj2 (proj2 (channel_squeeze_errors Z Z.add 0%Z
                           (mkTensor [1; 3; 1; 1] [1; 2; 3]%Z) 2)) 1 3 1 1);
      try reflexivity; cbn; lia.
Defined.

Lemma channel_squeeze_succeeds_iff_witness :
  (exists y, channel_squeeze Z.add 0%Z (mkTensor [0; 3; 2; 2] []) 2 = Ok y) /\
  forall y, channel_squeeze Z.add 0%Z (mkTensor [0; 3; 2; 2] []) 2 = Ok y ->
            dims y = [0; 1; 2; 2].
Proof.
  pose proof (channel_squeeze_succeeds_iff Z Z.add 0%Z (mkTensor [0; 3; 2; 2] [])
                0 3 2 2 2 eq_refl eq_refl ltac:(lia)) as [Hiff Hshape].
  split.
  - apply Hiff. right. reflexivity.
  - intros y Hy. exact (proj1 (Hshape y Hy)).
Defined.

Lemma channel_squeeze_one_group_witness :
  channel_squeeze Z.add 0%Z (mkTensor [1; 2; 1; 2] [1; 2; 3; 4]%Z) 1
  = Ok (mkTensor [1; 2; 1; 2] [1; 2; 3; 4]%Z).
Proof.
  apply (channel_squeeze_one_group Z Z.add 0%Z); reflexivity.
Defined.

Lemma channel_squeeze_twice_witness :
  exists y z,
    channel_squeeze Z.add 0%Z (mkTensor [1; 4; 1; 1] [1; 2; 3; 4]%Z) 2 = Ok y /\
    dims y = [1; 2; 1; 1] /\
    channel_squeeze Z.add 0%Z y 2 = Ok z /\
    channel_squeeze Z.add 0%Z (mkTensor [1; 4; 1; 1] [1; 2; 3; 4]%Z) (2 * 2) = Ok z /\
    dims z = [1; 1; 1; 1].
Proof.
  apply (channel_squeeze_twice Z Z.add 0%Z Z.add_assoc
           (mkTensor [1; 4; 1; 1] [1; 2; 3; 4]%Z) 1 1 2 2 1 1);
    try reflexivity; lia.
Defined.


Lemma FishBlock_squeeze_shortcut_shape_witness :
  exists blk cs y,
    FishBlock_init 4 2 1 1 true = Ok blk /\
    c_squeeze blk = Some cs /\
    ChannelSqueeze_forward Z Z.add 0%Z cs (mkTensor [1; 4; 1; 1] [1; 2; 3; 4]%Z) = Ok y /\
    dims y = [1; Z.to_nat 2; 1; 1].
Proof.
  eexists.
  destruct (FishBlock_squeeze_shortcut_shape Z Z.add 0%Z 4 2 1 1 _
              (mkTensor [1; 4; 1; 1] [1; 2; 3; 4]%Z) 1 1 1 eq_refl eq_refl eq_refl)
    as (cs & y & Hcs & Hy & Hd & _).
  exists cs, y. split; [reflexivity |]. now repeat split.
Defined.

Lemma SkipUnit_init_blocks_witness :
  exists u,
    SkipUnit_init 64 [128; 128; 256]%Z = Ok u /\
    length (skip_blocks u) = 3 /\
    map fst (skip_blocks u) = ["block1"; "block2"; "block3"] /\
    Forall2 is_default_block (skip_blocks u)
      [(64, 128); (128, 128); (128, 256)]%Z.
Proof.
  eexists. split; [reflexivity |].
  pose proof (SkipUnit_init_blocks 64 [128; 128; 256]%Z _ eq_refl)
    as (Hlen & Hnames & _ & Hblocks).
  split; [exact Hlen |]. split; [exact Hnames | exact Hblocks].
Defined.

Lemma DownUnit_UpUnit_init_blocks_witness :
  exists s d u,
    SkipUnit_init 4 [8; 8]%Z = Ok s /\
    DownUnit_init 4 [8; 8]%Z = Ok d /\
    UpUnit_init 4 [8; 8]%Z = Ok u /\
    down_blocks d = skip_blocks s ++ [("pool", LMaxPool2d 2 2)] /\
    length (up_blocks u) = 3.
Proof.
  do 3 eexists. do 3 (split; [reflexivity |]).
  pose proof (DownUnit_UpUnit_init_blocks 4 [8; 8]%Z _ _ _ eq_refl eq_refl eq_refl)
    as (Hdown & _ & _ & Hlen).
  split; [exact Hdown | exact Hlen].
Defined.

Lemma DownUnit_forward_blocks_then_pool_witness :
  exists d blocks,
    DownUnit_init 4 [8; 8]%Z = Ok d /\
    down_blocks d = blocks ++ [("pool", LMaxPool2d 2 2)] /\
    length blocks = 2.
Proof.
  eexists.
  destruct (DownUnit_forward_blocks_then_pool Z Z.add 0%Z (fun _ x => Ok x)
              (fun _ _ x => Ok x) (fun _ _ _ x => Ok x) (fun x _ => Ok x)
              4 [8; 8]%Z _ eq_refl) as (blocks & Hdown & Hlen & _).
  exists blocks. split; [reflexivity |]. split; [exact Hdown | exact Hlen].
Defined.

Lemma uniform_stage_shortcuts_witness :
  exists u name0 blk0 name1 blk1,
    SkipUnit_init 64 (repeat 128%Z 2) = Ok u /\
    nth_error (skip_blocks u) 0 = Some (name0, LFishBlock blk0) /\
    nth_error (skip_blocks u) 1 = Some (name1, LFishBlock blk1) /\
    (exists ic, identity_conv blk0 = Some ic) /\
    resize_identity blk1 = false /\ identity_conv blk1 = None.
Proof.
  do 5 eexists. split; [reflexivity |]. split; [reflexivity |]. split; [reflexivity |].
  pose proof (uniform_stage_shortcuts Z Z.add 0%Z (fun _ x => Ok x) (fun x _ => Ok x)
                64 128 2 0 _ _ _ eq_refl eq_refl) as (_ & _ & Hfirst & _).
  pose proof (uniform_stage_shortcuts Z Z.add 0%Z (fun _ x => Ok x) (fun x _ => Ok x)
                64 128 2 1 _ _ _ eq_refl eq_refl) as (_ & _ & _ & Hlater).
  destruct (Hfirst eq_refl) as (_ & _ & Hproj).
  destruct (Hproj ltac:(discriminate)) as (ic & _ & Hic & _).
  destruct (Hlater ltac:(lia)) as (Hr & Hi & _).
  split; [now exists ic |]. split; [exact Hr | exact Hi].
Defined.

Lemma FishNet_init_errors_witness :
  FishNet_init (PyList []) (PyList []) 64 3 (224, 224)%Z 1000
  = Err (IndexError "list index out of range") /\
  FishNet_init (PyList [PyGenerator []]) (PyList []) 64 3 (224, 224)%Z 1000
  = Err (TypeError "object of type 'generator' has no len()") /\
  FishNet_init (PyList [PyList []]) (PyList [PyList [PyList [64%Z]]]) 64 3
    (224, 224)%Z 1000
  = Err (TypeError "__init__() got an unexpected keyword argument 'out_channels'").
Proof.
  split; [| split].
  - apply (proj1 (FishNet_init_errors (PyList []) (PyList []) 64 3 (224, 224)%Z 1000
                    ltac:(lia) ltac:(lia))).
    reflexivity.
  - apply (proj1 (proj2 (FishNet_init_errors (PyList [PyGenerator []]) (PyList [])
                           64 3 (224, 224)%Z 1000 ltac:(lia) ltac:(lia))) [] []).
    reflexivity.
  - apply (proj2 (proj2 (FishNet_init_errors (PyList [PyList []])
                           (PyList [PyList [PyList [64%Z]]]) 64 3 (224, 224)%Z 1000
                           ltac:(lia) ltac:(lia)))
             [] [] 64%Z [] [] []); reflexivity.
Defined.

Lemma expand_channels_shape_witness :
  exists pathway stage,
    nth_error (py_items (expand_channels [[128; 256]; [512]]%Z [[2; 0; 7]]%Z)) 0
    = Some pathway /\
    length (py_items pathway) = 2 /\
    nth_error (py_items pathway) 1 = Some stage /\
    py_items stage = [].
Proof.
  destruct (proj2 (expand_channels_shape [[128; 256]; [512]]%Z [[2; 0; 7]]%Z)
              0 [128; 256]%Z [2; 0; 7]%Z eq_refl eq_refl)
    as (pathway & Hp & Hlen & Hstages).
  destruct (Hstages 1 256%Z 0%Z eq_refl eq_refl) as (stage & Hs & _ & _ & Hempty).
  exists pathway, stage. split; [exact Hp |]. split; [exact Hlen |].
  split; [exact Hs |]. apply Hempty. lia.
Defined.

Lemma FishNet_forward_flattens_witness :
  FishNet_forward Z (fun _ x => Ok x) (fun _ x => Ok x)
    (mkFishNet (224, 224)%Z 3 [("final_pool", FAvgPool2d 7 1)]
       [("final_conv", OConv1x1 3 3)])
    (mkTensor [2; 3; 1; 1] [1; 2; 3; 4; 5; 6]%Z)
  = Ok (mkTensor [2; 3] [1; 2; 3; 4; 5; 6]%Z).
Proof.
  apply (proj1 (FishNet_forward_flattens Z (fun _ x => Ok x) (fun _ x => Ok x)
                  (mkFishNet (224, 224)%Z 3 [("final_pool", FAvgPool2d 7 1)]
                     [("final_conv", OConv1x1 3 3)])
                  (mkTensor [2; 3; 1; 1] [1; 2; 3; 4; 5; 6]%Z)
                  (mkTensor [2; 3; 1; 1] [1; 2; 3; 4; 5; 6]%Z)
                  (mkTensor [2; 3; 1; 1] [1; 2; 3; 4; 5; 6]%Z)
                  2 [3; 1; 1] eq_refl eq_refl eq_refl eq_refl) ltac:(lia)).
Defined.
